(** * Water-quality backend: schemas.py and main.py

    A shallow embedding of the sample schema (schemas.py) and of the four
    request handlers of main.py (create_sample, list_samples, get_summaries,
    cluster_trigger), with the properties of the written specification that
    they decide.

    Conventions of the embedding:
    - a Python dict is a [gmap string value]; documents of the store and
      request bodies are such dicts;
    - a Python float is a finite double, carried by its exact rational
      value ([Qc], rationals in lowest terms); an int is a [Z];
    - a handler is a computation over the process-wide store handle [db]
      that returns a value or raises an exception. *)

From Stdlib Require Import ZArith QArith Qcanon Ascii String.
From stdpp Require Import base option list strings numbers pretty gmap fin_maps.

#[local] Set Warnings "-register-all".
#[local] Open Scope Z_scope.

(** ** Values *)

(** [datetime.datetime]: the calendar fields and the UTC offset in minutes
    ([None] for a naive timestamp). *)
Record datetime := mk_datetime {
  year : Z; month : Z; day : Z;
  hour : Z; minute : Z; second : Z; microsecond : Z;
  utcoffset : option Z
}.

(** What a request body or a stored document is made of: the JSON values,
    and the two types the store adds ([bson.ObjectId], [datetime]). *)
Inductive value :=
| VNull
| VBool (b : bool)
| VInt (z : Z)
| VFloat (q : Qc)
| VStr (s : string)
| VObjectId (hex : string)
| VDatetime (d : datetime)
| VList (l : list value)
| VDict (m : gmap string value).

Abbreviation dict := (gmap string value).

#[global] Instance datetime_eq_dec : EqDecision datetime.
Proof. solve_decision. Defined.

#[global] Instance value_eq_dec : EqDecision value.
Proof.
  refine (fix go (a b : value) {struct a} : Decision (a = b) :=
    let _ : EqDecision value := @go in
    match a, b with
    | VNull, VNull => left _
    | VBool x, VBool y => cast_if (decide (x = y))
    | VInt x, VInt y => cast_if (decide (x = y))
    | VFloat x, VFloat y => cast_if (decide (x = y))
    | VStr x, VStr y => cast_if (decide (x = y))
    | VObjectId x, VObjectId y => cast_if (decide (x = y))
    | VDatetime x, VDatetime y => cast_if (decide (x = y))
    | VList x, VList y => cast_if (decide (x = y))
    | VDict x, VDict y => cast_if (decide (x = y))
    | _, _ => right _
    end); abstract congruence.
Defined.

(** ** Python built-ins used by the handlers *)

(** [bool(v)]: the truth value that [if v:] tests. *)
Definition truthy (v : value) : bool :=
  match v with
  | VNull => false
  | VBool b => b
  | VInt z => negb (z =? 0)
  | VFloat q => negb (bool_decide (q = 0%Qc))
  | VStr s => negb (bool_decide (s = ""))
  | VObjectId _ => true
  | VDatetime _ => true
  | VList l => negb (bool_decide (l = []))
  | VDict m => negb (bool_decide (m = ∅))
  end.

(** [if scenario:] on an [Optional[str]]: [None] and [""] are both false. *)
Definition truthy_opt_str (o : option string) : bool :=
  match o with
  | None => false
  | Some s => truthy (VStr s)
  end.

(** Decimal text of [z], left-padded with zeros to [w] characters (the
    [%0wd] of the timestamp format). *)
Definition zero_pad (w : nat) (z : Z) : string :=
  let s := pretty z in
  String.concat "" (replicate (w - String.length s) "0") +:+ s.

Definition format_offset (o : option Z) : string :=
  match o with
  | None => ""
  | Some m =>
      (if m <? 0 then "-" else "+")
      +:+ zero_pad 2 (Z.abs m / 60) +:+ ":" +:+ zero_pad 2 (Z.abs m mod 60)
  end.

(** [datetime.isoformat(sep)]: [YYYY-MM-DDTHH:MM:SS], then [.ffffff] when
    the microsecond is not zero, then the offset of an aware timestamp. *)
Definition isoformat_sep (sep : string) (d : datetime) : string :=
  zero_pad 4 (year d) +:+ "-" +:+ zero_pad 2 (month d) +:+ "-"
  +:+ zero_pad 2 (day d) +:+ sep
  +:+ zero_pad 2 (hour d) +:+ ":" +:+ zero_pad 2 (minute d) +:+ ":"
  +:+ zero_pad 2 (second d)
  +:+ (if microsecond d =? 0 then "" else "." +:+ zero_pad 6 (microsecond d))
  +:+ format_offset (utcoffset d).

Definition isoformat : datetime → string := isoformat_sep "T".

(** [str(v)].  Exact on identifiers ([str(ObjectId)] is the 24-digit hex
    text), strings, ints, booleans, [None] and timestamps.  The [repr] of a
    float, list or dict is not modelled: the store never assigns one as the
    identifier of a record, and nothing below is stated about them. *)
Definition py_str (v : value) : string :=
  match v with
  | VNull => "None"
  | VBool b => if b then "True" else "False"
  | VInt z => pretty z
  | VStr s => s
  | VObjectId hex => hex
  | VDatetime d => isoformat_sep " " d
  | VFloat _ | VList _ | VDict _ => ""
  end.

(** ** Exceptions and handler computations *)

(** One entry of a pydantic error list: where, and which rule. *)
Inductive loc_item := LKey (k : string) | LIdx (i : nat).

Inductive rule :=
| missing
| model_type
| string_type
| float_type
| int_type
| datetime_type
| dict_type
| list_type
| greater_than_equal (bound : Z)
| less_than_equal (bound : Z).

Record verror := mk_verror { loc : list loc_item; violated : rule }.

#[global] Instance loc_item_eq_dec : EqDecision loc_item.
Proof. solve_decision. Defined.
#[global] Instance rule_eq_dec : EqDecision rule.
Proof. solve_decision. Defined.
#[global] Instance verror_eq_dec : EqDecision verror.
Proof. solve_decision. Defined.

(** The exceptions that reach a caller.  [RequestValidationError] is raised
    by the framework when the body of a request does not validate against
    the handler's parameter type (the specification's ValidationError);
    [HTTPException status e] is what every handler's
    [except Exception as e: raise HTTPException(500, detail=str(e))]
    produces, the exception being kept in place of its text. *)
Inductive exn :=
| StoreError (msg : string)
| KeyError (key : string)
| TypeError (msg : string)
| ValidationError (errs : list verror)
| RequestValidationError (errs : list verror)
| HTTPException (status : Z) (detail : exn).

Inductive result (A : Type) :=
| Ok (a : A)
| Raise (e : exn).
Arguments Ok {A} a.
Arguments Raise {A} e.

(** ** schemas.py: validation of untyped input against the declared models *)

(** The outcome of validating one value: the typed value, or the list of
    every rule it violates (pydantic collects them all, field by field). *)
Inductive validated (A : Type) :=
| Valid (a : A)
| Invalid (errs : list verror).
Arguments Valid {A} a.
Arguments Invalid {A} errs.

Definition validator (A : Type) : Type := value → validated A.

Definition vmap {A B} (f : A → B) (x : validated A) : validated B :=
  match x with
  | Valid a => Valid (f a)
  | Invalid es => Invalid es
  end.

(** Application that keeps the errors of both sides, in field order. *)
Definition vap {A B} (f : validated (A → B)) (x : validated A) : validated B :=
  match f, x with
  | Valid g, Valid a => Valid (g a)
  | Valid _, Invalid es => Invalid es
  | Invalid es, Valid _ => Invalid es
  | Invalid es1, Invalid es2 => Invalid (es1 ++ es2)
  end.

Notation "f <$$> x" := (vmap f x) (at level 61, left associativity).
Notation "f <**> x" := (vap f x) (at level 61, left associativity).

Definition violations {A} (x : validated A) : list verror :=
  match x with
  | Valid _ => []
  | Invalid es => es
  end.

Definition fail {A} (r : rule) : validated A := Invalid [mk_verror [] r].

(** Errors of a nested value are reported under the field or index that
    holds it. *)
Definition at_loc {A} (i : loc_item) (x : validated A) : validated A :=
  match x with
  | Valid a => Valid a
  | Invalid es => Invalid ((λ e, mk_verror (i :: loc e) (violated e)) <$> es)
  end.

(** A number of the input, as the float it converts to.  Only JSON numbers
    are taken as numbers here; the coercion of numeric text and of booleans
    that pydantic's lax mode adds is outside the model. *)
Definition as_number (v : value) : option Qc :=
  match v with
  | VInt z => Some (Qc_of_Z z)
  | VFloat q => Some q
  | _ => None
  end.

Definition v_str : validator string := λ v,
  match v with
  | VStr s => Valid s
  | _ => fail string_type
  end.

(** [float] with the optional [ge] and [le] of a [Field]. *)
Definition v_float (ge le : option Z) : validator Qc := λ v,
  match as_number v with
  | None => fail float_type
  | Some q =>
      match ge, le with
      | Some lo, _ =>
          if bool_decide (Qc_of_Z lo ≤ q)%Qc then
            match le with
            | Some hi =>
                if bool_decide (q ≤ Qc_of_Z hi)%Qc then Valid q
                else fail (less_than_equal hi)
            | None => Valid q
            end
          else fail (greater_than_equal lo)
      | None, Some hi =>
          if bool_decide (q ≤ Qc_of_Z hi)%Qc then Valid q
          else fail (less_than_equal hi)
      | None, None => Valid q
      end
  end.

(** [int]: an int, or a float without fractional part. *)
Definition v_int : validator Z := λ v,
  match v with
  | VInt z => Valid z
  | VFloat q =>
      if bool_decide (Qden (this q) = 1%positive) then Valid (Qnum (this q))
      else fail int_type
  | _ => fail int_type
  end.

(** [Optional[T]]: [None] or a [T]. *)
Definition v_optional {A} (f : validator A) : validator (option A) := λ v,
  match v with
  | VNull => Valid None
  | _ => Some <$$> f v
  end.

(** [List[T]]: every entry validated, errors located by index. *)
Fixpoint v_entries {A} (f : validator A) (i : nat) (l : list value)
  : validated (list A) :=
  match l with
  | [] => Valid []
  | v :: l' => cons <$$> at_loc (LIdx i) (f v) <**> v_entries f (S i) l'
  end.

Definition v_list {A} (f : validator A) : validator (list A) := λ v,
  match v with
  | VList l => v_entries f 0 l
  | _ => fail list_type
  end.

(** [Dict[str, T]]: any key, every value validated, errors located by key. *)
Definition v_dict {A} (f : validator A) : validator (gmap string A) := λ v,
  match v with
  | VDict m =>
      map_fold (λ k x acc, insert k <$$> at_loc (LKey k) (f x) <**> acc)
               (Valid ∅) m
  | _ => fail dict_type
  end.

(** A required field ([Field(...)], or a bare annotation). *)
Definition required {A} (k : string) (f : validator A) (d : dict)
  : validated A :=
  match d !! k with
  | None => Invalid [mk_verror [LKey k] missing]
  | Some v => at_loc (LKey k) (f v)
  end.

(** A field with a default ([Field(None, ...)], [= None]). *)
Definition defaulted {A} (k : string) (f : validator A) (dflt : A) (d : dict)
  : validated A :=
  match d !! k with
  | None => Valid dflt
  | Some v => at_loc (LKey k) (f v)
  end.

(** A [BaseModel]: the input must be a dict; keys that are not fields are
    ignored. *)
Definition v_model {A} (fields : dict → validated A) : validator A := λ v,
  match v with
  | VDict d => fields d
  | _ => fail model_type
  end.

(** *** Timestamps in the input

    A [datetime] field takes a timestamp, or ISO-8601 text of the shape
    [YYYY-MM-DD(T| )HH:MM:SS[.f{1,6}][Z|(+|-)HH:MM]].  (Unix timestamps
    given as numbers, which pydantic also accepts, are outside the model.) *)

Definition digit_of (a : ascii) : option Z :=
  let n := Z.of_nat (nat_of_ascii a) in
  if (48 <=? n) && (n <=? 57) then Some (n - 48) else None.

(** Exactly [n] digits. *)
Fixpoint take_digits (n : nat) (acc : Z) (s : string) : option (Z * string) :=
  match n, s with
  | O, _ => Some (acc, s)
  | S n', String a s' => d ← digit_of a; take_digits n' (10 * acc + d) s'
  | S _, EmptyString => None
  end.

(** Up to [n] further digits of a fraction, scaled to [n] places. *)
Fixpoint take_fraction (n : nat) (acc : Z) (s : string) : Z * string :=
  match n, s with
  | O, _ => (acc, s)
  | S n', String a s' =>
      match digit_of a with
      | Some d => take_fraction n' (10 * acc + d) s'
      | None => (acc * 10 ^ Z.of_nat n, s)
      end
  | S _, EmptyString => (acc * 10 ^ Z.of_nat n, s)
  end.

Definition expect (c : ascii) (s : string) : option string :=
  match s with
  | String a s' => if bool_decide (a = c) then Some s' else None
  | EmptyString => None
  end.

Definition is_leap (y : Z) : bool :=
  (y mod 4 =? 0) && (negb (y mod 100 =? 0) || (y mod 400 =? 0)).

Definition days_in_month (y m : Z) : Z :=
  if m =? 2 then (if is_leap y then 29 else 28)
  else if (m =? 4) || (m =? 6) || (m =? 9) || (m =? 11) then 30
  else 31.

Definition parse_offset (s : string) : option (option Z) :=
  match s with
  | EmptyString => Some None
  | String "Z" EmptyString => Some (Some 0)
  | String sign s1 =>
      sgn ← (if bool_decide (sign = "+"%char) then Some 1
             else if bool_decide (sign = "-"%char) then Some (-1)
             else None);
      '(hh, s2) ← take_digits 2 0 s1;
      s3 ← expect ":" s2;
      '(mm, s4) ← take_digits 2 0 s3;
      if bool_decide (s4 = "") && (hh <? 24) && (mm <? 60)
      then Some (Some (sgn * (60 * hh + mm))) else None
  end.

Definition parse_datetime (s : string) : option datetime :=
  '(y, s) ← take_digits 4 0 s;
  s ← expect "-" s;
  '(mo, s) ← take_digits 2 0 s;
  s ← expect "-" s;
  '(d, s) ← take_digits 2 0 s;
  s ← (match expect "T" s with Some s' => Some s' | None => expect " " s end);
  '(h, s) ← take_digits 2 0 s;
  s ← expect ":" s;
  '(mi, s) ← take_digits 2 0 s;
  s ← expect ":" s;
  '(sec, s) ← take_digits 2 0 s;
  '(us, s) ← (match expect "." s with
              | Some s' =>
                  '(d1, s1) ← take_digits 1 0 s';
                  Some (take_fraction 5 d1 s1)
              | None => Some (0, s)
              end);
  off ← parse_offset s;
  if (1 <=? y) && (1 <=? mo) && (mo <=? 12) && (1 <=? d)
     && (d <=? days_in_month y mo) && (h <? 24) && (mi <? 60) && (sec <? 60)
  then Some (mk_datetime y mo d h mi sec us off) else None.

Definition v_datetime : validator datetime := λ v,
  match v with
  | VDatetime d => Valid d
  | VStr s =>
      match parse_datetime s with
      | Some d => Valid d
      | None => fail datetime_type
      end
  | _ => fail datetime_type
  end.

(** *** The models of schemas.py *)

Module Location.
Record t := mk { lat : Qc; lon : Qc }.

Definition validate : validator t :=
  v_model (λ d,
    mk <$$> required "lat" (v_float (Some (-90)) (Some 90)) d
       <**> required "lon" (v_float (Some (-180)) (Some 180)) d).
End Location.

Module SampleFile.
Record t := mk {
  filename : string;
  url : option string;
  content_type : option string;
  size : option Z
}.

Definition validate : validator t :=
  v_model (λ d,
    mk <$$> required "filename" v_str d
       <**> defaulted "url" (v_optional v_str) None d
       <**> defaulted "content_type" (v_optional v_str) None d
       <**> defaulted "size" (v_optional v_int) None d).
End SampleFile.

Module WaterSample.
Record t := mk {
  scenario : string;
  site_name : option string;
  collected_at : datetime;
  location : Location.t;
  ph : option Qc;
  dissolved_oxygen_mg_l : option Qc;
  turbidity_ntu : option Qc;
  metals_mg_l : option (gmap string Qc);
  notes : option string;
  files : option (list SampleFile.t)
}.

Definition validate : validator t :=
  v_model (λ d,
    mk <$$> required "scenario" v_str d
       <**> defaulted "site_name" (v_optional v_str) None d
       <**> required "collected_at" v_datetime d
       <**> required "location" Location.validate d
       <**> defaulted "ph" (v_optional (v_float (Some 0) (Some 14))) None d
       <**> defaulted "dissolved_oxygen_mg_l"
              (v_optional (v_float (Some 0) None)) None d
       <**> defaulted "turbidity_ntu"
              (v_optional (v_float (Some 0) None)) None d
       <**> defaulted "metals_mg_l"
              (v_optional (v_dict (v_float None None))) None d
       <**> defaulted "notes" (v_optional v_str) None d
       <**> defaulted "files"
              (v_optional (v_list SampleFile.validate)) None d).
End WaterSample.

Module ScenarioSummary.
Record t := mk {
  scenario : string;
  count : Z;
  avg_ph : option Qc;
  avg_do : option Qc;
  avg_turbidity : option Qc
}.

Definition validate : validator t :=
  v_model (λ d,
    mk <$$> required "scenario" v_str d
       <**> required "count" v_int d
       <**> defaulted "avg_ph" (v_optional (v_float None None)) None d
       <**> defaulted "avg_do" (v_optional (v_float None None)) None d
       <**> defaulted "avg_turbidity"
              (v_optional (v_float None None)) None d).
End ScenarioSummary.

(** *** The request and response models of main.py *)

Module IngestResponse.
Record t := mk { id : string; status : string }.
End IngestResponse.

Module ClusterRequest.
Record t := mk { scenario : option string; k : Z }.

Definition validate : validator t :=
  v_model (λ d,
    mk <$$> defaulted "scenario" (v_optional v_str) None d
       <**> defaulted "k" v_int 3 d).
End ClusterRequest.

Module ClusterResult.
Record t := mk { scenario : option string; k : Z; labels : gmap string Z }.
End ClusterResult.


(** ** Handler computations

    A handler runs against the process-wide handle [db] of database.py,
    which is [None] when no store is configured; it returns a value or
    raises, and may leave a changed store behind. *)

Record database := mk_database {
  collections : gmap string (list dict);
  next_oid : N
}.

Definition handler (A : Type) : Type :=
  option database → result A * option database.

#[global] Instance handler_ret : MRet handler := λ A a db, (Ok a, db).

#[global] Instance handler_bind : MBind handler := λ A B f m db,
  match m db with
  | (Ok a, db') => f a db'
  | (Raise e, db') => (Raise e, db')
  end.

Definition raise {A} (e : exn) : handler A := λ db, (Raise e, db).

Definition lift {A} (r : result A) : handler A := λ db, (r, db).

(** [try: body except Exception as e: on_error(e)]. *)
Definition try_except {A} (body : handler A) (on_error : exn → handler A)
  : handler A := λ db,
  match body db with
  | (Ok a, db') => (Ok a, db')
  | (Raise e, db') => on_error e db'
  end.

(** The handlers' common
    [except Exception as e: raise HTTPException(status_code=500, detail=str(e))]. *)
Definition or_500 {A} (body : handler A) : handler A :=
  try_except body (λ e, raise (HTTPException 500 e)).

(** ** The document store (database.py) *)

Definition hex_digit (n : N) : string :=
  match n with
  | 0 => "0" | 1 => "1" | 2 => "2" | 3 => "3" | 4 => "4" | 5 => "5"
  | 6 => "6" | 7 => "7" | 8 => "8" | 9 => "9" | 10 => "a" | 11 => "b"
  | 12 => "c" | 13 => "d" | 14 => "e" | _ => "f"
  end%N.

Fixpoint hex_fixed (width : nat) (n : N) : string :=
  match width with
  | O => ""
  | S w => hex_fixed w (n / 16)%N +:+ hex_digit (n mod 16)%N
  end.

(** The text of the [n]-th identifier the store generates: 24 hex digits. *)
Definition oid_hex (n : N) : string := hex_fixed 24 n.

Definition set_opt (k : string) (o : option value) (d : dict) : dict :=
  match o with
  | Some v => <[k := v]> d
  | None => d
  end.

Definition file_document (f : SampleFile.t) : dict :=
  set_opt "url" (VStr <$> SampleFile.url f)
  (set_opt "content_type" (VStr <$> SampleFile.content_type f)
  (set_opt "size" (VInt <$> SampleFile.size f)
  {[ "filename" := VStr (SampleFile.filename f) ]})).

(** Modelled from the spec: database.py is not among the sources, so how a
    validated sample becomes a stored document is taken from the spec's
    round-trip property: every field with the value supplied, an optional
    field that was not supplied left absent. *)
Definition sample_document (x : WaterSample.t) : dict :=
  set_opt "site_name" (VStr <$> WaterSample.site_name x)
  (set_opt "ph" (VFloat <$> WaterSample.ph x)
  (set_opt "dissolved_oxygen_mg_l" (VFloat <$> WaterSample.dissolved_oxygen_mg_l x)
  (set_opt "turbidity_ntu" (VFloat <$> WaterSample.turbidity_ntu x)
  (set_opt "metals_mg_l"
     ((λ m : gmap string Qc, VDict (VFloat <$> m)) <$> WaterSample.metals_mg_l x)
  (set_opt "notes" (VStr <$> WaterSample.notes x)
  (set_opt "files"
     ((λ fs, VList ((λ f, VDict (file_document f)) <$> fs)) <$> WaterSample.files x)
  {[ "scenario" := VStr (WaterSample.scenario x);
     "collected_at" := VDatetime (WaterSample.collected_at x);
     "location" :=
       VDict {[ "lat" := VFloat (Location.lat (WaterSample.location x));
                "lon" := VFloat (Location.lon (WaterSample.location x)) ]}
  ]})))))).

Definition collection (name : string) (db : database) : list dict :=
  default [] (collections db !! name).

Definition not_available : exn := StoreError "Database not available".

(** Modelled from the spec: database.py is not among the sources.  The
    adapter's [insert(collection_name, record) -> generated_id]: the record
    is appended to the collection under a fresh store-assigned identifier,
    whose string form is returned; a store failure is a [StoreError]. *)
Definition create_document (collection_name : string) (data : WaterSample.t)
  : handler string := λ h,
  match h with
  | None => (Raise not_available, h)
  | Some db =>
      let oid := oid_hex (next_oid db) in
      let doc := <["_id" := VObjectId oid]> (sample_document data) in
      (Ok oid,
       Some {| collections :=
                 <[collection_name := collection collection_name db ++ [doc]]>
                   (collections db);
               next_oid := N.succ (next_oid db) |})
  end.

(** An equality filter on top-level fields: every key of the filter is a
    field of the document with that value. *)
Definition matches (filter_dict : dict) (doc : dict) : Prop :=
  map_Forall (λ k v, doc !! k = Some v) filter_dict.

#[global] Instance matches_dec flt doc : Decision (matches flt doc).
Proof. unfold matches. apply _. Defined.

(** [limit]: [None] is unlimited, a positive [n] keeps the first [n].  The
    spec says nothing of a limit below 1; it is taken as no limit here, and
    nothing below is stated about it. *)
Definition apply_limit {A} (limit : option Z) (l : list A) : list A :=
  match limit with
  | None => l
  | Some n => if 0 <? n then take (Z.to_nat n) l else l
  end.

(** Modelled from the spec: database.py is not among the sources.  The
    adapter's [query(collection_name, filter, limit)]: the records of the
    collection that match the filter, in insertion order, cut at the
    limit; the store is left as it is. *)
Definition get_documents (collection_name : string) (filter_dict : dict)
    (limit : option Z) : handler (list dict) := λ h,
  match h with
  | None => (Raise not_available, h)
  | Some db =>
      (Ok (apply_limit limit
             (filter (matches filter_dict) (collection collection_name db))), h)
  end.

(** *** Aggregation pipelines

    The two stages that main.py sends to the store, as data, and what the
    store computes for them. *)

(** ["$name"] reads a field of the document, anything else is a literal. *)
Inductive expr :=
| Field (name : string)
| Const (v : value).

Inductive accumulator :=
| Sum (e : expr)
| Avg (e : expr).

(** The right-hand sides of a [$project]: [0], [1], or an expression. *)
Inductive projected :=
| Exclude
| Include
| Computed (e : expr).

Inductive stage :=
| Group (_id : expr) (fields : list (string * accumulator))
| Project (fields : list (string * projected)).

(** [None] is a missing field. *)
Definition eval (e : expr) (doc : dict) : option value :=
  match e with
  | Field name => doc !! name
  | Const v => Some v
  end.

Definition is_int (v : value) : bool :=
  match v with
  | VInt _ => true
  | _ => false
  end.

Definition Qc_sum (l : list Qc) : Qc := foldr Qcplus 0%Qc l.

(** The mean of a non-empty list of numbers; there is none of the empty
    list. *)
Definition mean (l : list Qc) : option Qc :=
  match l with
  | [] => None
  | _ => Some (Qc_sum l / Qc_of_Z (Z.of_nat (length l)))%Qc
  end.

(** Modelled from the spec: the store's accumulators are not among the
    sources.  Both look only at the numeric values of the expression over
    the group: a null, a missing field or a value of another type does not
    count.  [$sum] adds them (an int while every one is an int); [$avg] is
    their mean, and null when there is none. *)
Definition accumulate (a : accumulator) (members : list dict) : value :=
  match a with
  | Sum e =>
      let vs := omap (eval e) members in
      let nums := omap as_number vs in
      if forallb is_int (filter (λ v, is_Some (as_number v)) vs)
      then VInt (foldr Z.add 0 (omap (λ v, match v with VInt z => Some z | _ => None end) vs))
      else VFloat (Qc_sum nums)
  | Avg e =>
      match mean (omap (λ d, eval e d ≫= as_number) members) with
      | Some q => VFloat q
      | None => VNull
      end
  end.

(** The key a document is grouped under; a missing field groups with null. *)
Definition group_key (e : expr) (doc : dict) : value :=
  default VNull (eval e doc).

Definition group_document (e : expr) (fields : list (string * accumulator))
    (docs : list dict) (key : value) : dict :=
  let members := filter (λ d, group_key e d = key) docs in
  <["_id" := key]>
    (list_to_map ((λ '(name, a), (name, accumulate a members)) <$> fields)).

Definition project_field (doc : dict) (out : dict) (f : string * projected)
  : dict :=
  match f with
  | (name, Exclude) => delete name out
  | (name, Include) => set_opt name (doc !! name) out
  | (name, Computed e) => set_opt name (eval e doc) out
  end.

(** Modelled from the spec: the store's pipeline stages are not among the
    sources.  [$group] yields one document per distinct key, with the key
    under [_id] and one field per accumulator (the order of the groups is
    the store's; here each key stands where it occurs last).  [$project]
    keeps [_id] unless it is excluded, the included fields that exist, and
    the computed fields. *)
Definition run_stage (st : stage) (docs : list dict) : list dict :=
  match st with
  | Group e fields =>
      group_document e fields docs <$> remove_dups (group_key e <$> docs)
  | Project fields =>
      (λ doc, foldl (project_field doc) (set_opt "_id" (doc !! "_id") ∅) fields)
        <$> docs
  end.

(** Modelled from the spec: the adapter's
    [aggregate(collection_name, pipeline_spec) -> sequence_of_groups], for
    a handle that is there. *)
Definition aggregate (collection_name : string) (pipeline : list stage)
    (db : database) : list dict :=
  foldl (λ docs st, run_stage st docs) (collection collection_name db) pipeline.

(** ** main.py *)

#[global] Instance result_ret : MRet result := λ A a, Ok a.
#[global] Instance result_bind : MBind result := λ A B f r,
  match r with
  | Ok a => f a
  | Raise e => Raise e
  end.
#[global] Instance result_fmap : FMap result := λ A B f r,
  match r with
  | Ok a => Ok (f a)
  | Raise e => Raise e
  end.

(** [d[key]]. *)
Definition subscript (d : dict) (key : string) : result value :=
  match d !! key with
  | Some v => Ok v
  | None => Raise (KeyError key)
  end.

(** [d.get(key)]. *)
Definition get (d : dict) (key : string) : value := default VNull (d !! key).

(** Calling a model class with the entries of [r] as keyword arguments. *)
Definition construct {A} (validate : validator A) (r : dict) : result A :=
  match validate (VDict r) with
  | Valid a => Ok a
  | Invalid es => Raise (ValidationError es)
  end.

(** A route whose parameter is a model: the framework validates the body
    of the request first, and calls the handler only with a valid one. *)
Definition with_body {A B} (validate : validator A) (h : A → handler B)
    (body : value) : handler B :=
  match validate body with
  | Valid a => h a
  | Invalid es => raise (RequestValidationError es)
  end.

(** *** POST /samples *)

Definition create_sample (sample : WaterSample.t) : handler IngestResponse.t :=
  or_500 (
    inserted_id ← create_document "watersample" sample;
    mret (IngestResponse.mk inserted_id "created")).

Definition post_samples : value → handler IngestResponse.t :=
  with_body WaterSample.validate create_sample.

(** *** GET /samples *)

(** [flt = {}; if scenario: flt["scenario"] = scenario], as list_samples
    and cluster_trigger both build it. *)
Definition scenario_filter (scenario : option string) : dict :=
  let flt : dict := ∅ in
  match scenario with
  | Some s => if truthy (VStr s) then <["scenario" := VStr s]> flt else flt
  | None => flt
  end.

(** The inner loop of [clean], over the items of a nested dict. *)
Definition clean_nested (v : dict) : dict :=
  map_fold (λ kk vv v',
              match vv with
              | VDatetime d => <[kk := VStr (isoformat d)]> v'
              | _ => v'
              end) v v.

Definition clean (doc : dict) : dict :=
  let doc :=
    match doc !! "_id" with
    | Some i =>
        if truthy i then <["id" := VStr (py_str i)]> (delete "_id" doc)
        else <["id" := VNull]> doc
    | None => <["id" := VNull]> doc
    end in
  map_fold (λ k v doc',
              let doc' :=
                match v with
                | VDatetime d => <[k := VStr (isoformat d)]> doc'
                | _ => doc'
                end in
              match v with
              | VDict m => <[k := VDict (clean_nested m)]> doc'
              | _ => doc'
              end) doc doc.

Definition list_samples (scenario : option string) (limit : option Z)
  : handler dict :=
  or_500 (
    let flt := scenario_filter scenario in
    docs ← get_documents "watersample" flt limit;
    let cleaned := clean <$> docs in
    mret ({[ "items" := VList (VDict <$> cleaned);
             "count" := VInt (Z.of_nat (length cleaned)) ]} : dict)).

(** The defaults of the signature
    [list_samples(scenario: Optional[str] = None, limit: Optional[int] = 200)]:
    an argument that the caller omits ([None] here) takes its default. *)
Definition list_samples_call (scenario : option (option string))
    (limit : option (option Z)) : handler dict :=
  list_samples (default None scenario) (default (Some 200) limit).

(** *** GET /summaries *)

Definition pipeline : list stage :=
  [ Group (Field "scenario")
      [ ("count", Sum (Const (VInt 1)));
        ("avg_ph", Avg (Field "ph"));
        ("avg_do", Avg (Field "dissolved_oxygen_mg_l"));
        ("avg_turbidity", Avg (Field "turbidity_ntu")) ];
    Project
      [ ("_id", Exclude);
        ("scenario", Computed (Field "_id"));
        ("count", Include);
        ("avg_ph", Include);
        ("avg_do", Include);
        ("avg_turbidity", Include) ] ].

Definition get_summaries : handler (list ScenarioSummary.t) :=
  or_500 (λ h,
    match h with
    | None => (Raise (TypeError "'NoneType' object is not subscriptable"), h)
    | Some db =>
        let results := aggregate "watersample" pipeline db in
        (mapM (construct ScenarioSummary.validate) results, h)
    end).

(** *** POST /cluster *)

(** The loop [for d in docs], appending to [ids] and [payload]. *)
Fixpoint collect (docs : list dict) (ids : list string)
    (payload : list (list value)) : result (list string * list (list value)) :=
  match docs with
  | [] => Ok (ids, payload)
  | d :: docs' =>
      i ← subscript d "_id";
      collect docs' (ids ++ [py_str i])
        (payload ++ [[get d "ph"; get d "dissolved_oxygen_mg_l";
                      get d "turbidity_ntu"]])
  end.

(** [{ids[i]: int(i % max(1, k)) for i in range(len(ids))}]: a later entry
    with the same key replaces an earlier one. *)
Definition round_robin (ids : list string) (k : Z) : gmap string Z :=
  foldl (λ labels i,
           match ids !! i with
           | Some key => <[key := Z.of_nat i mod Z.max 1 k]> labels
           | None => labels
           end) ∅ (seq 0 (length ids)).

Definition cluster_trigger (req : ClusterRequest.t) : handler ClusterResult.t :=
  or_500 (
    let flt := scenario_filter (ClusterRequest.scenario req) in
    docs ← get_documents "watersample" flt None;
    '(ids, payload) ← lift (collect docs [] []);
    let labels := round_robin ids (ClusterRequest.k req) in
    mret (ClusterResult.mk (ClusterRequest.scenario req) (ClusterRequest.k req)
            labels)).

Definition post_cluster : value → handler ClusterResult.t :=
  with_body ClusterRequest.validate cluster_trigger.

(** ** Definitions that the statements below use *)

Definition is_valid {A} (x : validated A) : bool :=
  match x with
  | Valid _ => true
  | Invalid _ => false
  end.

(** The checks of the ten fields of a sample, each taken on its own. *)
Definition field_checks (d : dict) : list (bool * list verror) :=
  let check {A} (x : validated A) := (is_valid x, violations x) in
  [ check (required "scenario" v_str d);
    check (defaulted "site_name" (v_optional v_str) None d);
    check (required "collected_at" v_datetime d);
    check (required "location" Location.validate d);
    check (defaulted "ph" (v_optional (v_float (Some 0) (Some 14))) None d);
    check (defaulted "dissolved_oxygen_mg_l"
             (v_optional (v_float (Some 0) None)) None d);
    check (defaulted "turbidity_ntu" (v_optional (v_float (Some 0) None)) None d);
    check (defaulted "metals_mg_l"
             (v_optional (v_dict (v_float None None))) None d);
    check (defaulted "notes" (v_optional v_str) None d);
    check (defaulted "files" (v_optional (v_list SampleFile.validate)) None d) ].


(** *** Sample data *)

(** A request body that has every required field, with the given scenario
    and [ph]. *)
Definition sample_body (sc : string) (p : value) : dict :=
  {[ "scenario" := VStr sc;
     "collected_at" := VStr "2024-03-01T10:30:00";
     "location" := VDict {[ "lat" := VInt 12; "lon" := VInt 77 ]};
     "ph" := p ]}.

Definition empty_store : database := mk_database ∅ 0.

(** A body that breaks two rules at once: [ph] above 14 and a negative
    dissolved oxygen. *)
Definition two_violations_body : dict :=
  <["dissolved_oxygen_mg_l" := VInt (-1)]> (sample_body "dry" (VInt 15)).

(** *** What normalization is to do to a value *)

(** A timestamp becomes its ISO-8601 text; anything else stays. *)
Definition render (v : value) : value :=
  match v with
  | VDatetime d => VStr (isoformat d)
  | _ => v
  end.

(** The same at the top level of a record and one level down in a nested
    dict; a list, and anything deeper, stays as it is. *)
Definition normalized (v : value) : value :=
  match v with
  | VDatetime d => VStr (isoformat d)
  | VDict m => VDict (render <$> m)
  | _ => v
  end.

(** *** The Query operation, as the specification words it *)

(** The response [{"items": cleaned, "count": len(cleaned)}]. *)
Definition page (cleaned : list dict) : dict :=
  {[ "items" := VList (VDict <$> cleaned);
     "count" := VInt (Z.of_nat (length cleaned)) ]}.

(** The records of the collection that a scenario argument selects when it
    restricts the result to the records of that scenario. *)
Definition of_scenario (s : string) (docs : list dict) : list dict :=
  filter (λ d, d !! "scenario" = Some (VStr s)) docs.

(** A stored record with a timestamp inside an entry of its [files] list. *)
Definition record_with_file_timestamp : dict :=
  {[ "_id" := VObjectId "65e1a0000000000000000001";
     "scenario" := VStr "dry";
     "collected_at" := VDatetime (mk_datetime 2024 3 1 10 30 0 0 None);
     "files" :=
       VList [ VDict {[ "filename" := VStr "probe.csv";
                        "uploaded_at" :=
                          VDatetime (mk_datetime 2024 3 2 8 0 0 0 None) ]} ] ]}.

(** [n] stored records of scenario ["dry"], with the identifiers the store
    generates. *)
Definition dry_records (n : nat) : list dict :=
  (λ i, {[ "_id" := VObjectId (oid_hex (N.of_nat i)); "scenario" := VStr "dry" ]})
    <$> seq 0 n.

Definition store_of (docs : list dict) : database :=
  mk_database {[ "watersample" := docs ]} (N.of_nat (length docs)).

(** The same two records in a store that differs elsewhere: another
    collection beside them, and another identifier to come. *)
Definition other_store : database :=
  mk_database {[ "watersample" := dry_records 2; "audit" := dry_records 1 ]} 9.

(** *** The Clustering stub, as the specification words it *)

(** The public id of a stored record: the text of its [_id]. *)
Definition id_text (d : dict) : string := py_str (get d "_id").

(** The records that a clustering request retrieves. *)
Definition retrieved (scenario : option string) (db : database) : list dict :=
  filter (matches (scenario_filter scenario)) (collection "watersample" db).

(** *** Summary aggregation, as the specification words it *)

(** The values of a field over a group that are there and are not null. *)
Definition non_null (field : string) (group : list dict) : list value :=
  filter (λ v, v ≠ VNull) (omap (λ d, d !! field) group).

(** The number a numeric value stands for. *)
Definition number_of (v : value) : Qc := default 0%Qc (as_number v).

(** The arithmetic mean of the non-null values of a field over a group;
    none when the group has no such value. *)
Definition mean_non_null (field : string) (group : list dict) : option Qc :=
  match non_null field group with
  | [] => None
  | vs => Some (Qc_sum (number_of <$> vs) / Qc_of_Z (Z.of_nat (length vs)))%Qc
  end.

(** The summary of the records of scenario [s]. *)
Definition summary_of (s : string) (docs : list dict) : ScenarioSummary.t :=
  let group := of_scenario s docs in
  ScenarioSummary.mk s (Z.of_nat (length group))
    (mean_non_null "ph" group)
    (mean_non_null "dissolved_oxygen_mg_l" group)
    (mean_non_null "turbidity_ntu" group).

(** A field as the schema lets a stored sample have it: absent, null, or a
    number. *)
Definition number_or_null (field : string) (d : dict) : Prop :=
  match d !! field with
  | None | Some VNull | Some (VInt _) | Some (VFloat _) => True
  | Some _ => False
  end.

(** A stored record as ingestion leaves it, as far as the summaries look:
    a string under [scenario], numbers or nothing under the three
    parameters. *)
Definition conforms (d : dict) : Prop :=
  (∃ s, d !! "scenario" = Some (VStr s))
  ∧ number_or_null "ph" d
  ∧ number_or_null "dissolved_oxygen_mg_l" d
  ∧ number_or_null "turbidity_ntu" d.

(** The name under a group key. *)
Definition scenario_name (key : value) : string :=
  match key with
  | VStr s => s
  | _ => ""
  end.

(** The value an average is reported as. *)
Definition average_value (m : option Qc) : value :=
  match m with
  | Some q => VFloat q
  | None => VNull
  end.

(** The specification's example: three records of scenario ["a"], with
    [ph] 6, 8 and null. *)
Definition three_records : list dict :=
  [ {[ "_id" := VObjectId (oid_hex 0); "scenario" := VStr "a"; "ph" := VInt 6 ]};
    {[ "_id" := VObjectId (oid_hex 1); "scenario" := VStr "a"; "ph" := VInt 8 ]};
    {[ "_id" := VObjectId (oid_hex 2); "scenario" := VStr "a"; "ph" := VNull ]} ].

(** Every member of the group has the field null or absent. *)
Definition all_null (field : string) (group : list dict) : Prop :=
  ∀ d, d ∈ group → d !! field = None ∨ d !! field = Some VNull.

(** ** The remaining endpoints of main.py *)

(** [GET /]. *)
Definition read_root : dict := {[ "message" := VStr "Water Quality Backend Running" ]}.

(** What [test_database] observes of a handle that is there: the [name]
    attribute, when the handle has one, and what
    [db.list_collection_names()] does, the names or the text of the
    exception it raises. *)
Module Db.
Record t := mk {
  name : option string;
  list_collection_names : string + list string
}.
End Db.

(** [os.getenv(key)] as a condition: set, and not to the empty string. *)
Definition getenv_truthy (environ : gmap string string) (key : string) : bool :=
  match environ !! key with
  | Some s => negb (bool_decide (s = ""))
  | None => false
  end.

(** [GET /test].  The assignments to [response], in the order of the code.
    Nothing in the outer [try] can raise here (the call that can is caught
    by the inner one), so the outer handler has no case.  The text of an
    exception is cut at 50 characters, taken as ASCII. *)
Definition test_database (db : option Db.t) (environ : gmap string string)
  : dict :=
  let response : dict :=
    {[ "backend" := VStr "✅ Running";
       "database" := VStr "❌ Not Available";
       "database_url" := VNull;
       "database_name" := VNull;
       "connection_status" := VStr "Not Connected";
       "collections" := VList [] ]} in
  let response :=
    match db with
    | Some conn =>
        let response := <["database" := VStr "✅ Available"]> response in
        let response := <["database_url" := VStr "✅ Configured"]> response in
        let response :=
          <["database_name" := VStr (default "✅ Connected" (Db.name conn))]>
            response in
        let response := <["connection_status" := VStr "Connected"]> response in
        match Db.list_collection_names conn with
        | inr collections =>
            let response :=
              <["collections" := VList (VStr <$> take 10 collections)]> response in
            <["database" := VStr "✅ Connected & Working"]> response
        | inl e =>
            <["database" :=
                VStr ("⚠️  Connected but Error: " +:+ substring 0 50 e)]> response
        end
    | None => <["database" := VStr "⚠️  Available but not initialized"]> response
    end in
  let response :=
    <["database_url" :=
        VStr (if getenv_truthy environ "DATABASE_URL" then "✅ Set"
              else "❌ Not Set")]> response in
  let response :=
    <["database_name" :=
        VStr (if getenv_truthy environ "DATABASE_NAME" then "✅ Set"
              else "❌ Not Set")]> response in
  response.

(** ** Further definitions that the statements below use *)

(** The names of the fields of a sample. *)
Definition sample_fields : list string :=
  [ "scenario"; "site_name"; "collected_at"; "location"; "ph";
    "dissolved_oxygen_mg_l"; "turbidity_ntu"; "metals_mg_l"; "notes"; "files" ].

(** A sample with another [ph]. *)
Definition with_ph (p : option Qc) (x : WaterSample.t) : WaterSample.t :=
  WaterSample.mk (WaterSample.scenario x) (WaterSample.site_name x)
    (WaterSample.collected_at x) (WaterSample.location x) p
    (WaterSample.dissolved_oxygen_mg_l x) (WaterSample.turbidity_ntu x)
    (WaterSample.metals_mg_l x) (WaterSample.notes x) (WaterSample.files x).


(** [lo ≤ q ≤ hi]. *)
Definition between (lo hi : Z) (q : Qc) : Prop :=
  (Qc_of_Z lo ≤ q)%Qc ∧ (q ≤ Qc_of_Z hi)%Qc.

(** The value is a timestamp. *)
Definition is_datetime (v : value) : bool :=
  match v with
  | VDatetime _ => true
  | _ => false
  end.

(** Two file entries, the second without a [filename], and a body that
    carries them. *)
Definition two_files : list value :=
  [ VDict {[ "filename" := VStr "a.csv" ]}; VDict {[ "size" := VInt 9 ]} ].

Definition body_with_files : dict :=
  <["files" := VList two_files]> (sample_body "dry" VNull).

(** Two stored records whose identifiers differ and read the same: the
    int 1 and the string ["1"]. *)
Definition same_text_records : list dict :=
  [ {[ "_id" := VInt 1; "scenario" := VStr "dry" ]};
    {[ "_id" := VStr "1"; "scenario" := VStr "wet" ]} ].

(** The records of [dry_records], each with a [ph]. *)
Definition measured_records (n : nat) : list dict :=
  (λ d : dict, <["ph" := VInt 7]> d) <$> dry_records n.

(** The counts of a list of summaries, added up. *)
Definition total_count (sums : list ScenarioSummary.t) : Z :=
  foldr Z.add 0 (ScenarioSummary.count <$> sums).

(** ** The field constraints of the data model, as the specification lists them *)



(** * Properties *)

(** ** Validation collects the errors of every field *)

Lemma violations_vmap {A B} (f : A → B) (x : validated A) :
  violations (f <$$> x) = violations x.
Proof. by destruct x. Qed.

Lemma violations_vap {A B} (f : validated (A → B)) (x : validated A) :
  violations (f <**> x) = violations f ++ violations x.
Proof. destruct f, x; simpl; try done. by rewrite app_nil_r. Qed.

Lemma is_valid_vmap {A B} (f : A → B) (x : validated A) :
  is_valid (f <$$> x) = is_valid x.
Proof. by destruct x. Qed.

Lemma is_valid_vap {A B} (f : validated (A → B)) (x : validated A) :
  is_valid (f <**> x) = is_valid f && is_valid x.
Proof. by destruct f, x. Qed.

Lemma invalid_violations {A} (x : validated A) :
  is_valid x = false → x = Invalid (violations x).
Proof. by destruct x. Qed.

Lemma valid_no_violations {A} (x : validated A) :
  is_valid x = true → violations x = [].
Proof. by destruct x. Qed.

Lemma violations_at_loc {A} (i : loc_item) (x : validated A) :
  violations (at_loc i x)
  = (λ e, mk_verror (i :: loc e) (violated e)) <$> violations x.
Proof. by destruct x. Qed.

Lemma is_valid_at_loc {A} (i : loc_item) (x : validated A) :
  is_valid (at_loc i x) = is_valid x.
Proof. by destruct x. Qed.

Lemma WaterSample_violations (d : dict) :
  violations (WaterSample.validate (VDict d)) = concat (snd <$> field_checks d).
Proof.
  unfold WaterSample.validate, v_model, field_checks.
  rewrite !violations_vap, violations_vmap. simpl.
  by rewrite app_nil_r, <- !app_assoc.
Qed.

Lemma WaterSample_is_valid (d : dict) :
  is_valid (WaterSample.validate (VDict d)) = forallb fst (field_checks d).
Proof.
  unfold WaterSample.validate, v_model, field_checks.
  rewrite !is_valid_vap, is_valid_vmap. simpl.
  by rewrite andb_true_r, <- !andb_assoc.
Qed.

(** ** Ingestion *)

Lemma ph_check_out_of_range (v : value) (q : Qc) :
  as_number v = Some q →
  (q < Qc_of_Z 0 ∨ Qc_of_Z 14 < q)%Qc →
  ∃ r, v_optional (v_float (Some 0) (Some 14)) v = Invalid [mk_verror [] r].
Proof.
  intros Hnum Hout.
  assert (v_optional (v_float (Some 0) (Some 14)) v
          = Some <$$> v_float (Some 0) (Some 14) v) as ->.
  { by destruct v. }
  unfold v_float. rewrite Hnum.
  destruct (decide (Qc_of_Z 0 ≤ q)%Qc) as [Hge|Hge].
  - rewrite (bool_decide_eq_true_2 _ Hge).
    destruct Hout as [Hlt|Hgt].
    { by apply Qclt_not_le in Hlt. }
    rewrite bool_decide_eq_false_2 by by apply Qclt_not_le.
    by eexists.
  - rewrite (bool_decide_eq_false_2 _ Hge). by eexists.
Qed.

Lemma post_samples_invalid (body : value) (h : option database) :
  is_valid (WaterSample.validate body) = false →
  post_samples body h
  = (Raise (RequestValidationError (violations (WaterSample.validate body))), h).
Proof.
  intros Hinv. unfold post_samples, with_body.
  by rewrite (invalid_violations _ Hinv).
Qed.

(** C1. A candidate record whose [ph] is a number outside [0,14] is refused
    with a validation error that names [ph], and the store is left exactly
    as it was: nothing is persisted. *)
Theorem ingestion_rejects_ph_out_of_range
    (body : dict) (v : value) (q : Qc) (h : option database) :
  body !! "ph" = Some v →
  as_number v = Some q →
  (q < Qc_of_Z 0 ∨ Qc_of_Z 14 < q)%Qc →
  ∃ errs r,
    post_samples (VDict body) h = (Raise (RequestValidationError errs), h)
    ∧ mk_verror [LKey "ph"] r ∈ errs.
Proof.
  intros Hph Hnum Hout.
  destruct (ph_check_out_of_range v q Hnum Hout) as [r Hr].
  exists (violations (WaterSample.validate (VDict body))), r. split.
  - apply post_samples_invalid.
    rewrite WaterSample_is_valid. unfold field_checks.
    cbn [forallb fst]. unfold defaulted at 2. rewrite Hph, Hr. cbn.
    by rewrite !andb_false_r.
  - rewrite WaterSample_violations. unfold field_checks.
    cbn [fmap list_fmap snd concat].
    unfold defaulted at 2. rewrite Hph, Hr. cbn [at_loc violations fmap list_fmap].
    rewrite !elem_of_app. do 4 right. left. cbn. apply list_elem_of_here.
Qed.

Lemma ingestion_rejects_ph_out_of_range_witness :
  sample_body "dry" (VInt 15) !! "ph" = Some (VInt 15)
  ∧ as_number (VInt 15) = Some (Qc_of_Z 15)
  ∧ (Qc_of_Z 15 < Qc_of_Z 0 ∨ Qc_of_Z 14 < Qc_of_Z 15)%Qc
  ∧ ∃ errs r,
      post_samples (VDict (sample_body "dry" (VInt 15))) (Some empty_store)
      = (Raise (RequestValidationError errs), Some empty_store)
      ∧ mk_verror [LKey "ph"] r ∈ errs.
Proof.
  split; [reflexivity|]. split; [reflexivity|]. split; [right; reflexivity|].
  apply (ingestion_rejects_ph_out_of_range _ (VInt 15) (Qc_of_Z 15));
    [reflexivity | reflexivity | right; reflexivity].
Defined.

Lemma violations_invalid {A} (x : validated A) (e : verror) :
  e ∈ violations x → is_valid x = false.
Proof. destruct x; [by intros ?%elem_of_nil | done]. Qed.

(** The same candidate, evaluated: both violations are reported, [ph]
    first. *)
Example two_violations_reported :
  WaterSample.validate (VDict two_violations_body)
  = Invalid [ mk_verror [LKey "ph"] (less_than_equal 14);
              mk_verror [LKey "dissolved_oxygen_mg_l"] (greater_than_equal 0) ].
Proof. reflexivity. Qed.

(** C7, as the claim states it, fails: a candidate record whose scenario is
    the empty string validates, and ingestion stores it. *)
Lemma empty_scenario_is_accepted :
  is_valid (WaterSample.validate (VDict (sample_body "" VNull))) = true
  ∧ (post_samples (VDict (sample_body "" VNull)) (Some empty_store)).1
    = Ok (IngestResponse.mk "000000000000000000000000" "created")
  ∧ ¬ ∃ errs,
        (post_samples (VDict (sample_body "" VNull)) (Some empty_store)).1
        = Raise (RequestValidationError errs).
Proof.
  split; [reflexivity|]. split; [reflexivity|].
  intros [errs H]. vm_compute in H. discriminate H.
Qed.

Lemma vmap_Valid {A B} (f : A → B) (x : validated A) (b : B) :
  f <$$> x = Valid b → ∃ a, x = Valid a ∧ b = f a.
Proof. destruct x; [intros [= <-]; eauto | done]. Qed.

Lemma vap_Valid {A B} (f : validated (A → B)) (x : validated A) (b : B) :
  f <**> x = Valid b → ∃ g a, f = Valid g ∧ x = Valid a ∧ b = g a.
Proof. destruct f, x; try done. intros [= <-]; eauto. Qed.

Lemma violations_required_loc {A} (k : string) (f : validator A) (d : dict)
    (e : verror) :
  e ∈ violations (required k f d) → head (loc e) = Some (LKey k).
Proof.
  unfold required. destruct (d !! k) as [v|].
  - rewrite violations_at_loc. by intros (e' & -> & _)%list_elem_of_fmap.
  - by intros ->%list_elem_of_singleton.
Qed.

Lemma violations_defaulted_loc {A} (k : string) (f : validator A) (dflt : A)
    (d : dict) (e : verror) :
  e ∈ violations (defaulted k f dflt d) → head (loc e) = Some (LKey k).
Proof.
  unfold defaulted. destruct (d !! k) as [v|].
  - rewrite violations_at_loc. by intros (e' & -> & _)%list_elem_of_fmap.
  - by intros ?%elem_of_nil.
Qed.

(** C7, amended. The scenario of a candidate record has to be there and to
    be a string, and any string will do, the empty one included: with a
    string under [scenario] the check of the field passes with that very
    string, so the errors of the validation are those of the nine other
    fields and a sample that validates carries the string as its scenario.
    A value that is not a string is refused as not a string, and a record
    without a scenario is refused as missing one; in both cases ingestion
    signals the validation error and stores nothing. *)
Theorem scenario_required_but_may_be_empty (d : dict) (h : option database) :
  (∀ s, d !! "scenario" = Some (VStr s) →
     required "scenario" v_str d = Valid s
     ∧ violations (WaterSample.validate (VDict d))
       = concat (snd <$> tail (field_checks d))
     ∧ is_valid (WaterSample.validate (VDict d))
       = forallb fst (tail (field_checks d))
     ∧ (∀ e, e ∈ violations (WaterSample.validate (VDict d)) →
          loc e ≠ [LKey "scenario"])
     ∧ (∀ x, WaterSample.validate (VDict d) = Valid x →
          WaterSample.scenario x = s))
  ∧ (d !! "scenario" = None →
     ∃ errs,
       post_samples (VDict d) h = (Raise (RequestValidationError errs), h)
       ∧ mk_verror [LKey "scenario"] missing ∈ errs)
  ∧ (∀ v, d !! "scenario" = Some v → (∀ s, v ≠ VStr s) →
     ∃ errs,
       post_samples (VDict d) h = (Raise (RequestValidationError errs), h)
       ∧ mk_verror [LKey "scenario"] string_type ∈ errs).
Proof.
  assert (∀ e : verror,
    mk_verror [LKey "scenario"] (violated e)
      ∈ violations (required "scenario" v_str d) →
    ∃ errs,
      post_samples (VDict d) h = (Raise (RequestValidationError errs), h)
      ∧ mk_verror [LKey "scenario"] (violated e) ∈ errs) as Hrefuse.
  { intros e He.
    assert (mk_verror [LKey "scenario"] (violated e)
              ∈ violations (WaterSample.validate (VDict d))) as Hin.
    { rewrite WaterSample_violations. unfold field_checks.
      cbn [fmap list_fmap concat snd]. apply elem_of_app. by left. }
    eexists. split; [|exact Hin].
    apply post_samples_invalid. by eapply violations_invalid. }
  split; [|split].
  - intros s Hsc.
    assert (required "scenario" v_str d = Valid s) as Hreq.
    { unfold required. by rewrite Hsc. }
    assert (violations (WaterSample.validate (VDict d))
            = concat (snd <$> tail (field_checks d))) as Hviol.
    { rewrite WaterSample_violations. unfold field_checks.
      cbn [tail fmap list_fmap concat snd]. by rewrite Hreq. }
    split; [done|]. split; [done|]. split; [|split].
    + rewrite WaterSample_is_valid. unfold field_checks.
      cbn [tail forallb fst]. by rewrite Hreq.
    + intros e. rewrite Hviol. unfold field_checks.
      cbn [tail fmap list_fmap concat snd]. rewrite !elem_of_app.
      intros He Hloc.
      repeat match type of He with
      | _ ∨ _ => destruct He as [He|He]
      end.
      all: try by apply elem_of_nil in He.
      all: first [ apply violations_required_loc in He
                 | apply violations_defaulted_loc in He ].
      all: rewrite Hloc in He; discriminate He.
    + intros x Hx. unfold WaterSample.validate, v_model in Hx.
      rewrite Hreq in Hx.
      do 9 (apply vap_Valid in Hx as (? & ? & Hx & _ & ->)).
      simpl in Hx. by injection Hx as <-.
  - intros Hsc.
    apply (Hrefuse (mk_verror [] missing)).
    unfold required. rewrite Hsc. apply list_elem_of_here.
  - intros v Hsc Hv.
    apply (Hrefuse (mk_verror [] string_type)).
    unfold required. rewrite Hsc.
    destruct v; try apply list_elem_of_here. by destruct (Hv s).
Qed.

Lemma scenario_required_but_may_be_empty_witness :
  sample_body "" VNull !! "scenario" = Some (VStr "")
  ∧ (∅ : dict) !! "scenario" = None
  ∧ sample_body "monsoon" VNull !! "scenario" = Some (VStr "monsoon")
  ∧ required "scenario" v_str (sample_body "" VNull) = Valid ""
  ∧ required "scenario" v_str (sample_body "monsoon" VNull) = Valid "monsoon"
  ∧ ∃ errs,
      post_samples (VDict ∅) (Some empty_store)
      = (Raise (RequestValidationError errs), Some empty_store)
      ∧ mk_verror [LKey "scenario"] missing ∈ errs.
Proof.
  split; [reflexivity|]. split; [reflexivity|]. split; [reflexivity|].
  split; [|split].
  - apply (proj1 (scenario_required_but_may_be_empty (sample_body "" VNull) None)).
    reflexivity.
  - apply (proj1 (scenario_required_but_may_be_empty
                    (sample_body "monsoon" VNull) None)).
    reflexivity.
  - apply (proj1 (proj2 (scenario_required_but_may_be_empty ∅ (Some empty_store)))).
    reflexivity.
Defined.

(** ** Normalization of a record: [clean] *)

(** A loop over the items of a dict that rewrites the entry it visits
    rewrites every entry, whatever the order of the visit. *)
Lemma map_fold_pointwise {A}
    (f : string → A → gmap string A → gmap string A) (g : A → A)
    (base m : gmap string A) :
  (∀ k v acc, acc !! k = Some v → f k v acc = <[k := g v]> acc) →
  m ⊆ base →
  ∀ j, map_fold f base m !! j
       = match m !! j with
         | Some v => Some (g v)
         | None => base !! j
         end.
Proof.
  intros Hf.
  apply (map_fold_weak_ind (λ r m', m' ⊆ base → ∀ j,
    r !! j = match m' !! j with Some v => Some (g v) | None => base !! j end)).
  - intros _ j. by rewrite lookup_empty.
  - intros i x m' r Hi IH Hsub j.
    assert (base !! i = Some x) as Hbase.
    { eapply lookup_weaken; [apply lookup_insert_eq | exact Hsub]. }
    assert (m' ⊆ base) as Hsub'.
    { etrans; [|exact Hsub]. by apply insert_subseteq. }
    specialize (IH Hsub').
    rewrite Hf; last first.
    { rewrite IH, Hi. exact Hbase. }
    destruct (decide (i = j)) as [->|Hne].
    + by rewrite !lookup_insert_eq.
    + rewrite !lookup_insert_ne by done. apply IH.
Qed.

Lemma map_fold_fmap_self {A}
    (f : string → A → gmap string A → gmap string A) (g : A → A)
    (m : gmap string A) :
  (∀ k v acc, acc !! k = Some v → f k v acc = <[k := g v]> acc) →
  map_fold f m m = g <$> m.
Proof.
  intros Hf. apply map_eq. intros j.
  rewrite (map_fold_pointwise f g m m Hf) by done.
  rewrite lookup_fmap. by destruct (m !! j).
Qed.

Lemma clean_nested_fmap (v : dict) : clean_nested v = render <$> v.
Proof.
  apply map_fold_fmap_self. intros k x acc Hk.
  destruct x; simpl; try done; by rewrite insert_id.
Qed.

(** The record after the [id] assignment of [clean]. *)
Lemma clean_fmap (doc : dict) :
  clean doc
  = normalized <$>
      match doc !! "_id" with
      | Some i =>
          if truthy i then <["id" := VStr (py_str i)]> (delete "_id" doc)
          else <["id" := VNull]> doc
      | None => <["id" := VNull]> doc
      end.
Proof.
  unfold clean. apply map_fold_fmap_self. intros k x acc Hk.
  destruct x; simpl; rewrite ?clean_nested_fmap; try done; by rewrite insert_id.
Qed.

(** C5, as the claim states it, fails: a timestamp inside an entry of a
    list ([files]) comes out of [clean] as a timestamp, not as text. *)
Lemma timestamp_in_list_not_rendered :
  clean record_with_file_timestamp !! "files"
  = Some (VList [ VDict {[ "filename" := VStr "probe.csv";
                           "uploaded_at" :=
                             VDatetime (mk_datetime 2024 3 2 8 0 0 0 None) ]} ])
  ∧ clean record_with_file_timestamp !! "collected_at"
    = Some (VStr "2024-03-01T10:30:00").
Proof. split; vm_compute; reflexivity. Qed.

(** C5, amended. For a record that carries a store-assigned identifier,
    [clean] removes [_id] and puts its text under [id]; a timestamp at the
    top level, or directly inside a nested dict, becomes its ISO-8601 text;
    every other field passes through unchanged, a list in particular, with
    whatever timestamps its entries hold. *)
Theorem clean_normalizes (doc : dict) (i : value) :
  doc !! "_id" = Some i →
  truthy i = true →
  clean doc !! "_id" = None
  ∧ clean doc !! "id" = Some (VStr (py_str i))
  ∧ (∀ k, k ≠ "_id" → k ≠ "id" → clean doc !! k = normalized <$> doc !! k)
  ∧ (∀ k l, k ≠ "_id" → k ≠ "id" → doc !! k = Some (VList l) →
       clean doc !! k = Some (VList l)).
Proof.
  intros Hid Htrue. rewrite clean_fmap, Hid, Htrue.
  assert (∀ k, k ≠ "_id" → k ≠ "id" →
    (normalized <$> <["id" := VStr (py_str i)]> (delete "_id" doc)) !! k
    = normalized <$> doc !! k) as Hother.
  { intros k H1 H2.
    by rewrite lookup_fmap, lookup_insert_ne, lookup_delete_ne. }
  split; [|split; [|split]].
  - by rewrite lookup_fmap, lookup_insert_ne, lookup_delete_eq.
  - by rewrite lookup_fmap, lookup_insert_eq.
  - exact Hother.
  - intros k l Hk Hk' Hl. by rewrite Hother, Hl.
Qed.

Lemma clean_normalizes_witness :
  record_with_file_timestamp !! "_id" = Some (VObjectId "65e1a0000000000000000001")
  ∧ truthy (VObjectId "65e1a0000000000000000001") = true
  ∧ clean record_with_file_timestamp !! "_id" = None
  ∧ clean record_with_file_timestamp !! "id"
    = Some (VStr (py_str (VObjectId "65e1a0000000000000000001")))
  ∧ (∀ k, k ≠ "_id" → k ≠ "id" →
       clean record_with_file_timestamp !! k
       = normalized <$> record_with_file_timestamp !! k)
  ∧ (∀ k l, k ≠ "_id" → k ≠ "id" →
       record_with_file_timestamp !! k = Some (VList l) →
       clean record_with_file_timestamp !! k = Some (VList l)).
Proof.
  split; [reflexivity|]. split; [reflexivity|].
  apply (clean_normalizes record_with_file_timestamp
           (VObjectId "65e1a0000000000000000001")); reflexivity.
Defined.

(** ** The Query operation *)

Lemma matches_empty (doc : dict) : matches ∅ doc.
Proof. apply map_Forall_empty. Qed.

Lemma matches_scenario (s : string) (doc : dict) :
  matches {[ "scenario" := VStr s ]} doc ↔ doc !! "scenario" = Some (VStr s).
Proof. unfold matches. by rewrite map_Forall_singleton. Qed.

Lemma filter_matches_empty (docs : list dict) : filter (matches ∅) docs = docs.
Proof.
  induction docs as [|d docs IH]; [done|].
  rewrite filter_cons_True by apply matches_empty. by rewrite IH.
Qed.

Lemma filter_matches_scenario (s : string) (docs : list dict) :
  filter (matches {[ "scenario" := VStr s ]}) docs = of_scenario s docs.
Proof.
  unfold of_scenario. apply list_filter_iff. intros d. apply matches_scenario.
Qed.

(** What [list_samples] answers when the store is there: the matching
    records, cut at the limit, each cleaned; the store stays as it is. *)
Lemma list_samples_ok (db : database) (scenario : option string)
    (limit : option Z) :
  list_samples scenario limit (Some db)
  = (Ok (page (clean <$> apply_limit limit
                 (filter (matches (scenario_filter scenario))
                         (collection "watersample" db)))),
     Some db).
Proof. reflexivity. Qed.

Lemma list_samples_no_store (scenario : option string) (limit : option Z) :
  list_samples scenario limit None
  = (Raise (HTTPException 500 not_available), None).
Proof. reflexivity. Qed.

(** C4, as the claim states it, fails: with the empty string supplied as
    scenario no filter is built, and the answer holds a record of scenario
    ["dry"]. *)
Lemma empty_scenario_builds_no_filter :
  scenario_filter (Some "") = ∅
  ∧ list_samples (Some "") (Some 200) (Some (store_of (dry_records 1)))
    = (Ok (page (clean <$> dry_records 1)), Some (store_of (dry_records 1)))
  ∧ of_scenario "" (dry_records 1) = [].
Proof. split; [reflexivity|]. split; vm_compute; reflexivity. Qed.

(** C4, amended. The filter on [scenario] is built exactly when a scenario
    is supplied and is not the empty string; the answer then holds only
    records of that scenario. Without the argument, or with the empty
    string, there is no restriction on the scenario. *)
Theorem query_filters_on_nonempty_scenario
    (db : database) (scenario : option string) (limit : option Z) :
  (∀ s, scenario = Some s → s ≠ "" →
     scenario_filter scenario = {[ "scenario" := VStr s ]}
     ∧ list_samples scenario limit (Some db)
       = (Ok (page (clean <$> apply_limit limit
                      (of_scenario s (collection "watersample" db)))),
          Some db))
  ∧ (scenario = None ∨ scenario = Some "" →
     scenario_filter scenario = ∅
     ∧ list_samples scenario limit (Some db)
       = (Ok (page (clean <$> apply_limit limit (collection "watersample" db))),
          Some db)).
Proof.
  split.
  - intros s -> Hs.
    assert (scenario_filter (Some s) = {[ "scenario" := VStr s ]}) as Hflt.
    { unfold scenario_filter. simpl.
      by rewrite bool_decide_eq_false_2. }
    split; [done|].
    by rewrite list_samples_ok, Hflt, filter_matches_scenario.
  - intros Hsc.
    assert (scenario_filter scenario = ∅) as Hflt.
    { by destruct Hsc as [-> | ->]. }
    split; [done|].
    by rewrite list_samples_ok, Hflt, filter_matches_empty.
Qed.

Lemma query_filters_on_nonempty_scenario_witness :
  (Some "dry" = Some "dry" ∧ "dry" ≠ "" ∧
     scenario_filter (Some "dry") = {[ "scenario" := VStr "dry" ]}
     ∧ list_samples (Some "dry") None (Some (store_of (dry_records 2)))
       = (Ok (page (clean <$> apply_limit None
                      (of_scenario "dry"
                         (collection "watersample" (store_of (dry_records 2)))))),
          Some (store_of (dry_records 2))))
  ∧ ((@None string = None ∨ None = Some "") ∧
     scenario_filter None = ∅
     ∧ list_samples None None (Some (store_of (dry_records 2)))
       = (Ok (page (clean <$> apply_limit None
                      (collection "watersample" (store_of (dry_records 2))))),
          Some (store_of (dry_records 2)))).
Proof.
  split.
  - split; [reflexivity|]. split; [discriminate|].
    apply (proj1 (query_filters_on_nonempty_scenario
                    (store_of (dry_records 2)) (Some "dry") None));
      [reflexivity | discriminate].
  - split; [left; reflexivity|].
    apply (proj2 (query_filters_on_nonempty_scenario
                    (store_of (dry_records 2)) None None)).
    left; reflexivity.
Defined.

Lemma length_dry_records (n : nat) : length (dry_records n) = n.
Proof. unfold dry_records. by rewrite length_fmap, length_seq. Qed.

(** C6, as the claim states it, fails: with no limit argument the call
    answers 200 of the 201 records of the store. *)
Lemma omitted_limit_is_not_unlimited :
  ∃ items,
    list_samples_call None None (Some (store_of (dry_records 201)))
    = (Ok (page items), Some (store_of (dry_records 201)))
    ∧ length items = 200%nat
    ∧ length (filter (matches (scenario_filter None))
                (collection "watersample" (store_of (dry_records 201))))
      = 201%nat.
Proof.
  eexists. split; [apply list_samples_ok|]. split.
  - rewrite length_fmap. unfold scenario_filter.
    rewrite filter_matches_empty. simpl default.
    change (apply_limit (Some 200) ?l) with (take 200 l).
    rewrite length_take.
    change (collection "watersample" (store_of (dry_records 201)))
      with (dry_records 201).
    rewrite length_dry_records. reflexivity.
  - unfold scenario_filter. rewrite filter_matches_empty.
    change (collection "watersample" (store_of (dry_records 201)))
      with (dry_records 201).
    apply length_dry_records.
Qed.

Example two_records_default_limit :
  list_samples_call None None (Some (store_of (dry_records 2)))
  = (Ok (page (clean <$> dry_records 2)), Some (store_of (dry_records 2))).
Proof. vm_compute. reflexivity. Qed.

(** C9. The answer of the Query operation is a function of the record
    sequence that the store returns for the arguments: two calls with the
    same arguments for which the store returns the same sequence give the
    same answer, items and count. A call leaves the store as it found it, so
    a second call right after the first gives the first one's answer. *)
Theorem query_is_idempotent
    (scenario : option string) (limit : option Z) (h h' : option database) :
  (get_documents "watersample" (scenario_filter scenario) limit h).1
  = (get_documents "watersample" (scenario_filter scenario) limit h').1 →
  (list_samples scenario limit h).1 = (list_samples scenario limit h').1
  ∧ (list_samples scenario limit h).2 = h
  ∧ list_samples scenario limit (list_samples scenario limit h).2
    = list_samples scenario limit h.
Proof.
  intros Hsame. split; [|split].
  - destruct h as [db|], h' as [db'|]; try done.
    rewrite !list_samples_ok. simpl in Hsame |- *.
    injection Hsame as ->. done.
  - by destruct h.
  - by destruct h.
Qed.

Lemma query_is_idempotent_witness :
  (get_documents "watersample" (scenario_filter (Some "dry")) (Some 5)
     (Some (store_of (dry_records 2)))).1
  = (get_documents "watersample" (scenario_filter (Some "dry")) (Some 5)
       (Some other_store)).1
  ∧ (list_samples (Some "dry") (Some 5) (Some (store_of (dry_records 2)))).1
    = (list_samples (Some "dry") (Some 5) (Some other_store)).1
  ∧ (list_samples (Some "dry") (Some 5) (Some (store_of (dry_records 2)))).2
    = Some (store_of (dry_records 2))
  ∧ list_samples (Some "dry") (Some 5)
      (list_samples (Some "dry") (Some 5) (Some (store_of (dry_records 2)))).2
    = list_samples (Some "dry") (Some 5) (Some (store_of (dry_records 2))).
Proof.
  split; [reflexivity|].
  apply (query_is_idempotent (Some "dry") (Some 5)
           (Some (store_of (dry_records 2))) (Some other_store)).
  reflexivity.
Defined.

(** ** The Clustering stub *)

Lemma collect_ok (docs : list dict) (ids : list string)
    (payload : list (list value)) :
  Forall (λ d, is_Some (d !! "_id")) docs →
  collect docs ids payload
  = Ok (ids ++ (id_text <$> docs),
        payload ++ ((λ d, [get d "ph"; get d "dissolved_oxygen_mg_l";
                           get d "turbidity_ntu"]) <$> docs)).
Proof.
  intros Hids. revert ids payload.
  induction Hids as [|d docs [i Hi] _ IH]; intros ids payload.
  - simpl. by rewrite !app_nil_r.
  - simpl. unfold subscript. rewrite Hi. simpl.
    rewrite IH, <- !app_assoc. simpl.
    assert (id_text d = py_str i) as ->; [|done].
    unfold id_text, get. by rewrite Hi.
Qed.

(** The label under a key is the one computed at the last position that
    holds the key. *)
Lemma round_robin_prefix (ids : list string) (k : Z) (n : nat) :
  (n ≤ length ids)%nat →
  ∀ key l,
    foldl (λ (labels : gmap string Z) i,
             match ids !! i with
             | Some key => <[key := Z.of_nat i mod Z.max 1 k]> labels
             | None => labels
             end) ∅ (seq 0 n) !! key = Some l
    ↔ ∃ i, (i < n)%nat ∧ ids !! i = Some key
           ∧ l = Z.of_nat i mod Z.max 1 k
           ∧ ∀ j, (i < j < n)%nat → ids !! j ≠ Some key.
Proof.
  induction n as [|n IH]; intros Hn key l.
  - simpl. rewrite lookup_empty. split; [done|]. intros (i & Hi & _). lia.
  - rewrite seq_S, foldl_app. simpl.
    destruct (lookup_lt_is_Some_2 ids n) as [kn Hkn]; [lia|].
    rewrite Hkn. destruct (decide (kn = key)) as [->|Hne].
    + rewrite lookup_insert_eq. split.
      * intros [= <-]. exists n. repeat split; [lia|done|]. intros j Hj. lia.
      * intros (i & Hi & Hik & -> & Hlast).
        destruct (decide (i = n)) as [->|Hin]; [done|].
        exfalso. apply (Hlast n); [lia|done].
    + rewrite lookup_insert_ne by done. rewrite IH by lia. split.
      * intros (i & Hi & Hik & -> & Hlast). exists i.
        repeat split; [lia|done|]. intros j Hj.
        destruct (decide (j = n)) as [->|Hjn].
        { rewrite Hkn. congruence. }
        apply Hlast. lia.
      * intros (i & Hi & Hik & -> & Hlast).
        assert (i ≠ n) by (intros ->; congruence).
        exists i. repeat split; [lia|done|]. intros j Hj. apply Hlast. lia.
Qed.

Lemma round_robin_lookup (ids : list string) (k : Z) (key : string) (l : Z) :
  round_robin ids k !! key = Some l
  ↔ ∃ i, ids !! i = Some key
         ∧ l = Z.of_nat i mod Z.max 1 k
         ∧ ∀ j, (i < j)%nat → ids !! j ≠ Some key.
Proof.
  unfold round_robin. rewrite round_robin_prefix by done. split.
  - intros (i & Hi & Hik & Hl & Hlast). exists i. repeat split; [done..|].
    intros j Hj. destruct (decide (j < length ids)%nat).
    + apply Hlast. lia.
    + rewrite lookup_ge_None_2 by lia. done.
  - intros (i & Hik & Hl & Hlast). exists i.
    split; [by eapply lookup_lt_Some|]. repeat split; [done..|].
    intros j Hj. apply Hlast. lia.
Qed.

Lemma round_robin_NoDup (ids : list string) (k : Z) (i : nat) (key : string) :
  NoDup ids →
  ids !! i = Some key →
  round_robin ids k !! key = Some (Z.of_nat i mod Z.max 1 k).
Proof.
  intros Hnd Hi. apply round_robin_lookup. exists i. repeat split; [done|].
  intros j Hj Hjk.
  assert (i = j) by (eapply NoDup_lookup; eauto). lia.
Qed.

(** Every key gets a label. *)
Lemma round_robin_is_Some (ids : list string) (k : Z) (key : string) :
  key ∈ ids → is_Some (round_robin ids k !! key).
Proof.
  intros Hin.
  assert (∃ i, ids !! i = Some key ∧ ∀ j, (i < j)%nat → ids !! j ≠ Some key)
    as (i & Hi & Hlast).
  { induction ids as [|x ids IH]; [by apply elem_of_nil in Hin|].
    destruct (decide (key ∈ ids)) as [Hin'|Hnin].
    - destruct (IH Hin') as (i & Hi & Hlast). exists (S i). split; [done|].
      intros [|j] Hj; [lia|]. simpl. apply Hlast. lia.
    - apply elem_of_cons in Hin as [->|]; [|done]. exists 0%nat. split; [done|].
      intros [|j] Hj; [lia|]. simpl. intros Hjk.
      apply Hnin. by eapply list_elem_of_lookup_2. }
  eexists. apply round_robin_lookup. exists i. eauto.
Qed.

Lemma cluster_trigger_ok (db : database) (req : ClusterRequest.t) :
  Forall (λ d, is_Some (d !! "_id")) (retrieved (ClusterRequest.scenario req) db) →
  cluster_trigger req (Some db)
  = (Ok (ClusterResult.mk (ClusterRequest.scenario req) (ClusterRequest.k req)
           (round_robin (id_text <$> retrieved (ClusterRequest.scenario req) db)
              (ClusterRequest.k req))),
     Some db).
Proof.
  intros Hids. unfold cluster_trigger, or_500, try_except, mbind, handler_bind.
  simpl. unfold lift. fold (retrieved (ClusterRequest.scenario req) db).
  by rewrite (collect_ok _ [] [] Hids).
Qed.

(** C2. For every scenario filter and every integer [k], over a store whose
    records carry distinct identifiers, the stub answers, and the record at
    position [i] of the retrieval (from 0) is labelled [i mod k] when [k] is
    at least 1, and 0 when [k] is 0 or negative, as if [k] were 1. *)
Theorem cluster_labels_round_robin
    (db : database) (scenario : option string) (k : Z) :
  Forall (λ d, is_Some (d !! "_id")) (retrieved scenario db) →
  NoDup (id_text <$> retrieved scenario db) →
  ∃ labels,
    cluster_trigger (ClusterRequest.mk scenario k) (Some db)
    = (Ok (ClusterResult.mk scenario k labels), Some db)
    ∧ ∀ i d, retrieved scenario db !! i = Some d →
        (1 ≤ k → labels !! id_text d = Some (Z.of_nat i mod k))
        ∧ (k ≤ 0 → labels !! id_text d = Some 0).
Proof.
  intros Hids Hnd. eexists. split.
  { by rewrite cluster_trigger_ok. }
  simpl. intros i d Hi.
  assert ((id_text <$> retrieved scenario db) !! i = Some (id_text d)) as Hi'.
  { by rewrite list_lookup_fmap, Hi. }
  rewrite (round_robin_NoDup _ k i _ Hnd Hi'). split; intros Hk.
  - by rewrite Z.max_r.
  - rewrite Z.max_l by lia. by rewrite Z.mod_1_r.
Qed.

Lemma cluster_labels_round_robin_witness :
  Forall (λ d, is_Some (d !! "_id")) (retrieved None (store_of (dry_records 7)))
  ∧ NoDup (id_text <$> retrieved None (store_of (dry_records 7)))
  ∧ ∃ labels,
      cluster_trigger (ClusterRequest.mk None 3) (Some (store_of (dry_records 7)))
      = (Ok (ClusterResult.mk None 3 labels), Some (store_of (dry_records 7)))
      ∧ (λ d, labels !! id_text d) <$> dry_records 7
        = Some <$> [0; 1; 2; 0; 1; 2; 0].
Proof.
  assert (Forall (λ d, is_Some (d !! "_id"))
            (retrieved None (store_of (dry_records 7)))) as Hids.
  { apply (bool_decide_unpack _). vm_compute. exact I. }
  assert (NoDup (id_text <$> retrieved None (store_of (dry_records 7)))) as Hnd.
  { apply (bool_decide_unpack _). vm_compute. exact I. }
  split; [exact Hids|]. split; [exact Hnd|].
  destruct (cluster_labels_round_robin (store_of (dry_records 7)) None 3 Hids Hnd)
    as (labels & Hrun & Hlabels).
  exists labels. split; [exact Hrun|].
  assert (∀ i d, dry_records 7 !! i = Some d →
            labels !! id_text d = Some (Z.of_nat i mod 3)) as Hl.
  { intros i d Hi. apply (Hlabels i d); [exact Hi | lia]. }
  cbn [dry_records seq fmap list_fmap].
  rewrite (Hl 0%nat _ eq_refl), (Hl 1%nat _ eq_refl), (Hl 2%nat _ eq_refl),
    (Hl 3%nat _ eq_refl), (Hl 4%nat _ eq_refl), (Hl 5%nat _ eq_refl),
    (Hl 6%nat _ eq_refl).
  reflexivity.
Defined.

(** The specification's example, evaluated: 7 records, [k = 3]; and
    [k = 0]. *)
Example seven_records_three_clusters :
  (λ d, round_robin (id_text <$> dry_records 7) 3 !! id_text d) <$> dry_records 7
  = Some <$> [0; 1; 2; 0; 1; 2; 0]
  ∧ (λ d, round_robin (id_text <$> dry_records 7) 0 !! id_text d) <$> dry_records 7
    = Some <$> [0; 0; 0; 0; 0; 0; 0].
Proof. split; vm_compute; reflexivity. Qed.

(** C10. Whatever [k] the request carries, the answer of the stub reports
    that same [k]; the floor to 1 is used for the labels only, so that for a
    [k] of 0 or below the answer carries this [k] while every retrieved
    record is labelled 0 and no label is anything else. *)
Theorem cluster_reports_k_unchanged (db : database) (req : ClusterRequest.t) :
  Forall (λ d, is_Some (d !! "_id")) (retrieved (ClusterRequest.scenario req) db) →
  ∃ r,
    cluster_trigger req (Some db) = (Ok r, Some db)
    ∧ ClusterResult.k r = ClusterRequest.k req
    ∧ (ClusterRequest.k req ≤ 0 →
       (∀ d, d ∈ retrieved (ClusterRequest.scenario req) db →
          ClusterResult.labels r !! id_text d = Some 0)
       ∧ map_Forall (λ _ l, l = 0) (ClusterResult.labels r)).
Proof.
  intros Hids. eexists. split; [by apply cluster_trigger_ok|].
  split; [done|]. simpl. intros Hk.
  assert (∀ key l,
    round_robin (id_text <$> retrieved (ClusterRequest.scenario req) db)
      (ClusterRequest.k req) !! key = Some l → l = 0) as Hzero.
  { intros key l (i & _ & -> & _)%round_robin_lookup.
    rewrite Z.max_l by lia. apply Z.mod_1_r. }
  split.
  - intros d Hd.
    destruct (round_robin_is_Some
                (id_text <$> retrieved (ClusterRequest.scenario req) db)
                (ClusterRequest.k req) (id_text d)) as [l Hl].
    { by apply list_elem_of_fmap_2. }
    by rewrite Hl, (Hzero _ _ Hl).
  - intros key l. apply Hzero.
Qed.

Lemma cluster_reports_k_unchanged_witness :
  Forall (λ d, is_Some (d !! "_id"))
    (retrieved None (store_of (dry_records 2)))
  ∧ ∃ r,
      cluster_trigger (ClusterRequest.mk None (-2)) (Some (store_of (dry_records 2)))
      = (Ok r, Some (store_of (dry_records 2)))
      ∧ ClusterResult.k r = -2
      ∧ (-2 ≤ 0 →
         (∀ d, d ∈ retrieved None (store_of (dry_records 2)) →
            ClusterResult.labels r !! id_text d = Some 0)
         ∧ map_Forall (λ _ l, l = 0) (ClusterResult.labels r)).
Proof.
  assert (Forall (λ d, is_Some (d !! "_id"))
            (retrieved None (store_of (dry_records 2)))) as Hids.
  { apply (bool_decide_unpack _). vm_compute. exact I. }
  split; [exact Hids|].
  exact (cluster_reports_k_unchanged (store_of (dry_records 2))
           (ClusterRequest.mk None (-2)) Hids).
Defined.

(** ** Summary aggregation *)

Lemma count_members (members : list dict) :
  accumulate (Sum (Const (VInt 1))) members
  = VInt (Z.of_nat (length members)).
Proof.
  unfold accumulate.
  induction members as [|d members IH]; [done|].
  cbn [omap list_omap eval] in IH |- *.
  rewrite filter_cons_True by (by eexists).
  cbn [forallb is_int andb length].
  destruct (forallb _ _); [|done].
  injection IH as IH. rewrite Nat2Z.inj_succ. simpl foldr.
  rewrite IH. f_equal. lia.
Qed.

Lemma average_members (field : string) (members : list dict) :
  Forall (number_or_null field) members →
  accumulate (Avg (Field field)) members
  = average_value (mean_non_null field members).
Proof.
  intros Hconf. unfold accumulate, mean_non_null, average_value.
  assert (omap (λ d, eval (Field field) d ≫= as_number) members
          = number_of <$> non_null field members) as ->.
  { unfold non_null.
    induction Hconf as [|d members Hd _ IH]; [done|].
    unfold number_or_null in Hd.
    cbn [omap list_omap eval].
    destruct (d !! field) as [[]|] eqn:Hf; try done.
    all: cbn [mbind option_bind as_number].
    all: try (rewrite filter_cons_True by done).
    all: try (rewrite filter_cons_False by (intros ?; done)).
    all: rewrite ?fmap_cons; cbn [eval] in IH; by rewrite IH. }
  unfold mean. rewrite length_fmap.
  by destruct (non_null field members).
Qed.

(** One group through [$project] and the [ScenarioSummary] constructor. *)
Lemma summary_of_group (s : string) (n : Z) (m1 m2 m3 : option Qc) :
  construct ScenarioSummary.validate
    (foldl (project_field
              (<["_id" := VStr s]>
                 (list_to_map [ ("count", VInt n);
                                ("avg_ph", average_value m1);
                                ("avg_do", average_value m2);
                                ("avg_turbidity", average_value m3) ])))
       (set_opt "_id"
          ((<["_id" := VStr s]>
              (list_to_map [ ("count", VInt n);
                             ("avg_ph", average_value m1);
                             ("avg_do", average_value m2);
                             ("avg_turbidity", average_value m3) ]) : dict)
           !! "_id") ∅)
       [ ("_id", Exclude);
         ("scenario", Computed (Field "_id"));
         ("count", Include);
         ("avg_ph", Include);
         ("avg_do", Include);
         ("avg_turbidity", Include) ])
  = Ok (ScenarioSummary.mk s n m1 m2 m3).
Proof. by destruct m1, m2, m3. Qed.

Lemma members_of_scenario (s : string) (docs : list dict) :
  filter (λ d, group_key (Field "scenario") d = VStr s) docs = of_scenario s docs.
Proof.
  unfold of_scenario. apply list_filter_iff. intros d.
  unfold group_key, eval. destruct (d !! "scenario") as [v|]; simpl.
  - split; congruence.
  - split; discriminate.
Qed.

Lemma Forall_conforms_of_scenario (s : string) (docs : list dict) :
  Forall conforms docs → Forall conforms (of_scenario s docs).
Proof.
  rewrite !Forall_forall. intros H d Hd. apply H.
  unfold of_scenario in Hd. by apply list_elem_of_filter in Hd as [_ ?].
Qed.

(** What the pipeline makes of the collection, group by group. *)
Lemma summaries_of_keys (docs : list dict) (keys : list value) :
  Forall conforms docs →
  Forall (λ key, ∃ s, key = VStr s) keys →
  mapM (construct ScenarioSummary.validate)
    (run_stage
       (Project [ ("_id", Exclude);
                  ("scenario", Computed (Field "_id"));
                  ("count", Include);
                  ("avg_ph", Include);
                  ("avg_do", Include);
                  ("avg_turbidity", Include) ])
       (group_document (Field "scenario")
          [ ("count", Sum (Const (VInt 1)));
            ("avg_ph", Avg (Field "ph"));
            ("avg_do", Avg (Field "dissolved_oxygen_mg_l"));
            ("avg_turbidity", Avg (Field "turbidity_ntu")) ] docs <$> keys))
  = Ok ((λ key, summary_of (scenario_name key) docs) <$> keys).
Proof.
  intros Hdocs Hkeys.
  induction Hkeys as [|key keys [s ->] _ IH]; [done|].
  cbn [run_stage fmap list_fmap] in IH |- *.
  cbn [mapM]. rewrite IH. clear IH.
  unfold group_document at 1. rewrite members_of_scenario.
  cbn [fmap list_fmap].
  rewrite count_members.
  pose proof (Forall_conforms_of_scenario s docs Hdocs) as Hg.
  rewrite !average_members
    by (eapply Forall_impl; [exact Hg | intros d (_ & ? & ? & ?); done]).
  by rewrite summary_of_group.
Qed.

Lemma get_summaries_ok (db : database) :
  Forall conforms (collection "watersample" db) →
  get_summaries (Some db)
  = (Ok ((λ key, summary_of (scenario_name key) (collection "watersample" db))
           <$> remove_dups (group_key (Field "scenario")
                              <$> collection "watersample" db)),
     Some db).
Proof.
  intros Hdocs.
  unfold get_summaries, or_500, try_except, aggregate, pipeline.
  cbn [foldl].
  change (run_stage (Group ?e ?fs) ?ds)
    with (group_document e fs ds <$> remove_dups (group_key e <$> ds)).
  rewrite summaries_of_keys; [done|done|].
  apply Forall_forall. intros key Hkey.
  apply elem_of_remove_dups, list_elem_of_fmap in Hkey as (d & -> & Hd).
  rewrite Forall_forall in Hdocs.
  destruct (Hdocs d Hd) as [[s Hs] _]. exists s.
  unfold group_key, eval. by rewrite Hs.
Qed.

Lemma mean_non_null_all_null (field : string) (group : list dict) :
  all_null field group → mean_non_null field group = None.
Proof.
  intros Hnull. unfold mean_non_null.
  assert (non_null field group = []) as ->; [|done].
  unfold non_null. induction group as [|d group IH]; [done|].
  assert (all_null field group) as Hrest.
  { intros d' Hd'. apply Hnull. by apply list_elem_of_further. }
  cbn [omap list_omap].
  destruct (Hnull d (list_elem_of_here _ _)) as [-> | ->].
  - by apply IH.
  - rewrite filter_cons_False by (intros ?; done). by apply IH.
Qed.

(** C3. Over a store of records as ingestion leaves them, Summary
    Aggregation answers one summary per scenario that occurs; the summary
    of a scenario counts the records of the scenario, and each of its three
    averages is the arithmetic mean of the non-null values of the field
    among them, and is null, not zero and not an error, when every one of
    them has the field null or absent. *)
Theorem summaries_average_non_null_values (db : database) :
  Forall conforms (collection "watersample" db) →
  ∃ sums,
    get_summaries (Some db) = (Ok sums, Some db)
    ∧ NoDup (ScenarioSummary.scenario <$> sums)
    ∧ (∀ d s, d ∈ collection "watersample" db →
         d !! "scenario" = Some (VStr s) →
         summary_of s (collection "watersample" db) ∈ sums)
    ∧ (∀ sm, sm ∈ sums →
         let group :=
           of_scenario (ScenarioSummary.scenario sm) (collection "watersample" db) in
         group ≠ []
         ∧ ScenarioSummary.count sm = Z.of_nat (length group)
         ∧ ScenarioSummary.avg_ph sm = mean_non_null "ph" group
         ∧ ScenarioSummary.avg_do sm = mean_non_null "dissolved_oxygen_mg_l" group
         ∧ ScenarioSummary.avg_turbidity sm = mean_non_null "turbidity_ntu" group
         ∧ (all_null "ph" group → ScenarioSummary.avg_ph sm = None)
         ∧ (all_null "dissolved_oxygen_mg_l" group →
            ScenarioSummary.avg_do sm = None)
         ∧ (all_null "turbidity_ntu" group →
            ScenarioSummary.avg_turbidity sm = None)).
Proof.
  intros Hdocs. eexists. split; [by apply get_summaries_ok|].
  set (docs := collection "watersample" db) in *.
  assert (∀ key, key ∈ remove_dups (group_key (Field "scenario") <$> docs) →
            ∃ d s, d ∈ docs ∧ d !! "scenario" = Some (VStr s) ∧ key = VStr s)
    as Hkeys.
  { intros key Hkey.
    apply elem_of_remove_dups, list_elem_of_fmap in Hkey as (d & -> & Hd).
    rewrite Forall_forall in Hdocs.
    destruct (Hdocs d Hd) as [[s Hs] _]. exists d, s.
    unfold group_key, eval. by rewrite Hs. }
  split; [|split].
  - rewrite <- list_fmap_compose. apply NoDup_fmap_2_strong.
    + intros k1 k2 (_ & s1 & _ & _ & ->)%Hkeys (_ & s2 & _ & _ & ->)%Hkeys.
      simpl. by intros ->.
    + apply NoDup_remove_dups.
  - intros d s Hd Hs. apply list_elem_of_fmap.
    exists (VStr s). split; [done|].
    apply elem_of_remove_dups, list_elem_of_fmap.
    exists d. split; [|done]. unfold group_key, eval. by rewrite Hs.
  - intros sm (key & -> & (d & s & Hd & Hs & ->)%Hkeys)%list_elem_of_fmap.
    simpl. split; [|repeat split].
    + intros Hnil. unfold of_scenario in Hnil.
      by apply (filter_nil_not_elem_of _ _ d Hnil).
    + apply mean_non_null_all_null.
    + apply mean_non_null_all_null.
    + apply mean_non_null_all_null.
Qed.

(** The specification's example: [ph] 6, 8 and null in scenario ["a"] give
    a count of 3 and an average of 7; the two other averages are null. *)
Lemma three_records_summary :
  summary_of "a" three_records
  = ScenarioSummary.mk "a" 3 (Some (Qc_of_Z 7)) None None.
Proof.
  unfold summary_of.
  assert (mean_non_null "ph" (of_scenario "a" three_records) = Some (Qc_of_Z 7))
    as ->.
  { vm_compute. f_equal. apply Qc_is_canon. reflexivity. }
  reflexivity.
Qed.

Lemma three_records_conform : Forall conforms three_records.
Proof.
  unfold three_records.
  repeat (apply Forall_cons_2 || apply Forall_nil_2).
  all: split; [exists "a"; vm_compute; reflexivity | vm_compute; done].
Qed.

Lemma summaries_average_non_null_values_witness :
  Forall conforms (collection "watersample" (store_of three_records))
  ∧ ∃ sums,
      get_summaries (Some (store_of three_records))
      = (Ok sums, Some (store_of three_records))
      ∧ ScenarioSummary.mk "a" 3 (Some (Qc_of_Z 7)) None None ∈ sums.
Proof.
  split; [exact three_records_conform|].
  destruct (summaries_average_non_null_values (store_of three_records)
              three_records_conform) as (sums & Hrun & _ & Hin & _).
  exists sums. split; [exact Hrun|].
  rewrite <- three_records_summary.
  apply (Hin {[ "_id" := VObjectId (oid_hex 0); "scenario" := VStr "a";
                "ph" := VInt 6 ]} "a").
  - apply list_elem_of_here.
  - reflexivity.
Defined.

Example three_records_summaries :
  ∃ q,
    get_summaries (Some (store_of three_records))
    = (Ok [ScenarioSummary.mk "a" 3 (Some q) None None],
       Some (store_of three_records))
    ∧ q = Qc_of_Z 7.
Proof.
  eexists. split; [vm_compute; reflexivity|].
  apply Qc_is_canon. reflexivity.
Qed.

(** * Further properties *)

(** ** What a validated sample satisfies *)

Lemma is_valid_Valid {A} (x : validated A) :
  is_valid x = true → ∃ a, x = Valid a.
Proof. destruct x; [by eexists | done]. Qed.

Lemma v_float_Valid (ge le : option Z) (v : value) (q : Qc) :
  v_float ge le v = Valid q →
  as_number v = Some q
  ∧ (∀ lo, ge = Some lo → (Qc_of_Z lo ≤ q)%Qc)
  ∧ (∀ hi, le = Some hi → (q ≤ Qc_of_Z hi)%Qc).
Proof.
  unfold v_float. destruct (as_number v) as [q'|]; [|done].
  destruct ge as [lo|], le as [hi|]; repeat case_bool_decide; try done.
  all: intros [= ->]; repeat split; try done.
  all: by intros ? [= <-].
Qed.

Lemma v_float_in_range (ge le : option Z) (v : value) (q : Qc) :
  as_number v = Some q →
  (∀ lo, ge = Some lo → (Qc_of_Z lo ≤ q)%Qc) →
  (∀ hi, le = Some hi → (q ≤ Qc_of_Z hi)%Qc) →
  v_float ge le v = Valid q.
Proof.
  intros Hnum Hge Hle. unfold v_float. rewrite Hnum.
  destruct ge as [lo|], le as [hi|]; try done.
  all: rewrite ?(bool_decide_eq_true_2 _ (Hge _ eq_refl)).
  all: by rewrite ?(bool_decide_eq_true_2 _ (Hle _ eq_refl)).
Qed.

Lemma v_optional_Valid {A} (f : validator A) (v : value) (o : option A) :
  v_optional f v = Valid o →
  (v = VNull ∧ o = None) ∨ (∃ a, f v = Valid a ∧ o = Some a).
Proof.
  destruct v; simpl; try (destruct (f _) eqn:Hf; simpl; [|done]).
  all: intros [= <-]; eauto.
Qed.

Lemma at_loc_Valid {A} (i : loc_item) (x : validated A) (a : A) :
  at_loc i x = Valid a ↔ x = Valid a.
Proof. by destruct x. Qed.

Lemma required_Valid {A} (k : string) (f : validator A) (d : dict) (a : A) :
  required k f d = Valid a ↔ ∃ v, d !! k = Some v ∧ f v = Valid a.
Proof.
  unfold required. destruct (d !! k) as [v|].
  - rewrite at_loc_Valid. split; [eauto|]. by intros (? & [= <-] & ?).
  - split; [done|]. by intros (? & ? & _).
Qed.

Lemma defaulted_Valid {A} (k : string) (f : validator A) (dflt : A) (d : dict)
    (a : A) :
  defaulted k f dflt d = Valid a
  ↔ (d !! k = None ∧ a = dflt) ∨ (∃ v, d !! k = Some v ∧ f v = Valid a).
Proof.
  unfold defaulted. destruct (d !! k) as [v|].
  - rewrite at_loc_Valid. split; [eauto|].
    intros [[? _]|(? & [= <-] & ?)]; done.
  - split; [intros [= <-]; eauto|]. intros [[_ ->]|(? & ? & _)]; done.
Qed.

(** The exact condition under which a location validates: [lat] and [lon]
    are both there, numbers, and within their ranges (ends included). *)
Lemma Location_validate_Valid (d : dict) (l : Location.t) :
  Location.validate (VDict d) = Valid l
  ↔ (∃ v, d !! "lat" = Some v ∧ as_number v = Some (Location.lat l))
    ∧ (∃ v, d !! "lon" = Some v ∧ as_number v = Some (Location.lon l))
    ∧ between (-90) 90 (Location.lat l)
    ∧ between (-180) 180 (Location.lon l).
Proof.
  unfold Location.validate, v_model, between. split.
  - intros H.
    destruct (required "lat" _ d) as [la|] eqn:Hla; [|by destruct (required "lon" _ d)].
    destruct (required "lon" _ d) as [lo|] eqn:Hlo; [|done].
    injection H as <-. simpl.
    apply required_Valid in Hla as (v1 & Hv1 & (? & Hge1 & Hle1)%v_float_Valid).
    apply required_Valid in Hlo as (v2 & Hv2 & (? & Hge2 & Hle2)%v_float_Valid).
    split; [by exists v1|]. split; [by exists v2|].
    split; (split; [apply Hge1 || apply Hge2 | apply Hle1 || apply Hle2]); done.
  - intros ((v1 & Hv1 & Hn1) & (v2 & Hv2 & Hn2) & [Hge1 Hle1] & [Hge2 Hle2]).
    assert (required "lat" (v_float (Some (-90)) (Some 90)) d
            = Valid (Location.lat l)) as ->.
    { apply required_Valid. exists v1. split; [done|].
      apply v_float_in_range; [done|by intros ? [= <-]..]. }
    assert (required "lon" (v_float (Some (-180)) (Some 180)) d
            = Valid (Location.lon l)) as ->.
    { apply required_Valid. exists v2. split; [done|].
      apply v_float_in_range; [done|by intros ? [= <-]..]. }
    by destruct l.
Qed.

(** The components of a valid sample, field by field. *)
Lemma WaterSample_validate_Valid (d : dict) (x : WaterSample.t) :
  WaterSample.validate (VDict d) = Valid x
  ↔ required "scenario" v_str d = Valid (WaterSample.scenario x)
    ∧ defaulted "site_name" (v_optional v_str) None d
      = Valid (WaterSample.site_name x)
    ∧ required "collected_at" v_datetime d = Valid (WaterSample.collected_at x)
    ∧ required "location" Location.validate d = Valid (WaterSample.location x)
    ∧ defaulted "ph" (v_optional (v_float (Some 0) (Some 14))) None d
      = Valid (WaterSample.ph x)
    ∧ defaulted "dissolved_oxygen_mg_l" (v_optional (v_float (Some 0) None)) None d
      = Valid (WaterSample.dissolved_oxygen_mg_l x)
    ∧ defaulted "turbidity_ntu" (v_optional (v_float (Some 0) None)) None d
      = Valid (WaterSample.turbidity_ntu x)
    ∧ defaulted "metals_mg_l" (v_optional (v_dict (v_float None None))) None d
      = Valid (WaterSample.metals_mg_l x)
    ∧ defaulted "notes" (v_optional v_str) None d = Valid (WaterSample.notes x)
    ∧ defaulted "files" (v_optional (v_list SampleFile.validate)) None d
      = Valid (WaterSample.files x).
Proof.
  split.
  - unfold WaterSample.validate, v_model. intros H.
    apply vap_Valid in H as (? & a10 & H & H10 & ->).
    apply vap_Valid in H as (? & a9 & H & H9 & ->).
    apply vap_Valid in H as (? & a8 & H & H8 & ->).
    apply vap_Valid in H as (? & a7 & H & H7 & ->).
    apply vap_Valid in H as (? & a6 & H & H6 & ->).
    apply vap_Valid in H as (? & a5 & H & H5 & ->).
    apply vap_Valid in H as (? & a4 & H & H4 & ->).
    apply vap_Valid in H as (? & a3 & H & H3 & ->).
    apply vap_Valid in H as (? & a2 & H & H2 & ->).
    apply vmap_Valid in H as (a1 & H1 & ->).
    repeat split; assumption.
  - unfold WaterSample.validate, v_model.
    intros (-> & -> & -> & -> & -> & -> & -> & -> & -> & ->). by destruct x.
Qed.

(** X1. A sample that validates is within the bounds of the schema:
    latitude in [-90,90], longitude in [-180,180], and, when they are given,
    [ph] in [0,14] and dissolved oxygen and turbidity not negative. *)
Theorem validated_sample_within_bounds (body : value) (x : WaterSample.t) :
  WaterSample.validate body = Valid x →
  between (-90) 90 (Location.lat (WaterSample.location x))
  ∧ between (-180) 180 (Location.lon (WaterSample.location x))
  ∧ (∀ q, WaterSample.ph x = Some q → between 0 14 q)
  ∧ (∀ q, WaterSample.dissolved_oxygen_mg_l x = Some q → (Qc_of_Z 0 ≤ q)%Qc)
  ∧ (∀ q, WaterSample.turbidity_ntu x = Some q → (Qc_of_Z 0 ≤ q)%Qc).
Proof.
  destruct body as [| | | | | | | |d]; try done.
  intros (_ & _ & _ & Hloc & Hph & Hdo & Htu & _)%WaterSample_validate_Valid.
  assert (∀ (k : string) ge le (o : option Qc) q,
    defaulted k (v_optional (v_float ge le)) None d = Valid o → o = Some q →
    (∀ lo, ge = Some lo → (Qc_of_Z lo ≤ q)%Qc)
    ∧ (∀ hi, le = Some hi → (q ≤ Qc_of_Z hi)%Qc)) as Hfield.
  { intros k ge le o q Hd ->.
    apply defaulted_Valid in Hd as [[_ ?]|(v & _ & Hv)]; [done|].
    apply v_optional_Valid in Hv as [[_ ?]|(a & Ha & [= <-])]; [done|].
    by apply v_float_Valid in Ha as (_ & ? & ?). }
  apply required_Valid in Hloc as (v & _ & Hv).
  destruct v as [| | | | | | | |dl]; try done.
  apply Location_validate_Valid in Hv as (_ & _ & Hlat & Hlon).
  split; [done|]. split; [done|]. split; [|split].
  - intros q Hq. destruct (Hfield _ _ _ _ q Hph Hq) as [Hge Hle].
    split; [by apply Hge | by apply Hle].
  - intros q Hq. destruct (Hfield _ _ _ _ q Hdo Hq) as [Hge _]. by apply Hge.
  - intros q Hq. destruct (Hfield _ _ _ _ q Htu Hq) as [Hge _]. by apply Hge.
Qed.

Lemma validated_sample_within_bounds_witness :
  is_valid (WaterSample.validate (VDict (sample_body "dry" (VInt 7)))) = true
  ∧ ∀ x, WaterSample.validate (VDict (sample_body "dry" (VInt 7))) = Valid x →
      between (-90) 90 (Location.lat (WaterSample.location x))
      ∧ between (-180) 180 (Location.lon (WaterSample.location x))
      ∧ (∀ q, WaterSample.ph x = Some q → between 0 14 q)
      ∧ (∀ q, WaterSample.dissolved_oxygen_mg_l x = Some q → (Qc_of_Z 0 ≤ q)%Qc)
      ∧ (∀ q, WaterSample.turbidity_ntu x = Some q → (Qc_of_Z 0 ≤ q)%Qc).
Proof.
  split; [reflexivity|]. intros x Hx.
  exact (validated_sample_within_bounds _ x Hx).
Defined.

(** X2. For a location whose [lat] and [lon] are given as numbers, the
    schema decides by the bounds alone: it validates exactly when [lat] is
    in [-90,90] and [lon] in [-180,180], ends included, and then with
    these two coordinates. *)
Theorem location_valid_iff_in_range (d : dict) (v1 v2 : value) (la lo : Qc) :
  d !! "lat" = Some v1 → as_number v1 = Some la →
  d !! "lon" = Some v2 → as_number v2 = Some lo →
  (is_valid (Location.validate (VDict d)) = true
   ↔ between (-90) 90 la ∧ between (-180) 180 lo)
  ∧ (Location.validate (VDict d) = Valid (Location.mk la lo)
     ↔ between (-90) 90 la ∧ between (-180) 180 lo)
  ∧ ∀ l, Location.validate (VDict d) = Valid l → l = Location.mk la lo.
Proof.
  intros H1 Hn1 H2 Hn2.
  assert (∀ l, Location.validate (VDict d) = Valid l →
            l = Location.mk la lo
            ∧ between (-90) 90 la ∧ between (-180) 180 lo) as Hvalid.
  { intros l Hl.
    apply Location_validate_Valid
      in Hl as ((w1 & Hw1 & Hm1) & (w2 & Hw2 & Hm2) & Hla & Hlo).
    rewrite H1 in Hw1. injection Hw1 as <-.
    rewrite H2 in Hw2. injection Hw2 as <-.
    rewrite Hn1 in Hm1. injection Hm1 as Hm1.
    rewrite Hn2 in Hm2. injection Hm2 as Hm2.
    destruct l as [la' lo']. simpl in *. by subst. }
  assert (between (-90) 90 la ∧ between (-180) 180 lo →
            Location.validate (VDict d) = Valid (Location.mk la lo)) as Hrange.
  { intros [Hla Hlo]. apply Location_validate_Valid. simpl.
    split; [by exists v1|]. split; [by exists v2|]. done. }
  split; [|split].
  - split.
    + intros [l Hl]%is_valid_Valid. by apply Hvalid in Hl as (_ & ? & ?).
    + intros Hr. by rewrite (Hrange Hr).
  - split; [|done]. intros Hl. by apply Hvalid in Hl as (_ & ? & ?).
  - intros l Hl. by apply Hvalid in Hl as (? & _).
Qed.

Lemma location_valid_iff_in_range_witness :
  ({[ "lat" := VInt 90; "lon" := VInt (-180) ]} : dict) !! "lat" = Some (VInt 90)
  ∧ as_number (VInt 90) = Some (Qc_of_Z 90)
  ∧ ({[ "lat" := VInt 90; "lon" := VInt (-180) ]} : dict) !! "lon"
    = Some (VInt (-180))
  ∧ as_number (VInt (-180)) = Some (Qc_of_Z (-180))
  ∧ (Location.validate (VDict {[ "lat" := VInt 90; "lon" := VInt (-180) ]})
     = Valid (Location.mk (Qc_of_Z 90) (Qc_of_Z (-180)))
     ↔ between (-90) 90 (Qc_of_Z 90) ∧ between (-180) 180 (Qc_of_Z (-180))).
Proof.
  split; [reflexivity|]. split; [reflexivity|]. split; [reflexivity|].
  split; [reflexivity|].
  apply (location_valid_iff_in_range {[ "lat" := VInt 90; "lon" := VInt (-180) ]}
           (VInt 90) (VInt (-180)) (Qc_of_Z 90) (Qc_of_Z (-180)));
    reflexivity.
Defined.

Lemma required_insert_ne {A} (k k' : string) (f : validator A) (v : value)
    (d : dict) :
  k' ≠ k → required k f (<[k' := v]> d) = required k f d.
Proof. intros Hne. unfold required. by rewrite lookup_insert_ne. Qed.

Lemma defaulted_insert_ne {A} (k k' : string) (f : validator A) (dflt : A)
    (v : value) (d : dict) :
  k' ≠ k → defaulted k f dflt (<[k' := v]> d) = defaulted k f dflt d.
Proof. intros Hne. unfold defaulted. by rewrite lookup_insert_ne. Qed.

Lemma defaulted_insert_eq {A} (k : string) (f : validator A) (dflt : A)
    (v : value) (d : dict) :
  defaulted k f dflt (<[k := v]> d) = at_loc (LKey k) (f v).
Proof. unfold defaulted. by rewrite lookup_insert_eq. Qed.

(** X3. Keys of the body that are not fields of the model play no part:
    adding one changes neither the outcome of the validation nor the
    errors. *)
Theorem unknown_keys_are_ignored (d : dict) (k : string) (v : value) :
  k ∉ sample_fields →
  WaterSample.validate (VDict (<[k := v]> d)) = WaterSample.validate (VDict d).
Proof.
  intros Hk. unfold sample_fields in Hk.
  repeat (apply not_elem_of_cons in Hk as [? Hk]).
  unfold WaterSample.validate, v_model.
  by rewrite !required_insert_ne, !defaulted_insert_ne.
Qed.

Lemma unknown_keys_are_ignored_witness :
  ("operator" ∉ sample_fields)
  ∧ WaterSample.validate
      (VDict (<["operator" := VStr "lab-2"]> (sample_body "dry" (VInt 7))))
    = WaterSample.validate (VDict (sample_body "dry" (VInt 7))).
Proof.
  assert ("operator" ∉ sample_fields) as Hk.
  { apply (bool_decide_unpack _). vm_compute. exact I. }
  split; [exact Hk|].
  exact (unknown_keys_are_ignored _ "operator" (VStr "lab-2") Hk).
Defined.

(** X4. Within a sample that validates, [ph] can be replaced by any number
    of [0,14], or by null, and the sample still validates, with that [ph]
    and every other field as before. *)
Theorem ph_in_range_is_accepted (d : dict) (x : WaterSample.t) (q : Qc) :
  WaterSample.validate (VDict d) = Valid x →
  between 0 14 q →
  WaterSample.validate (VDict (<["ph" := VFloat q]> d)) = Valid (with_ph (Some q) x)
  ∧ WaterSample.validate (VDict (<["ph" := VNull]> d)) = Valid (with_ph None x).
Proof.
  intros Hx [Hge Hle].
  apply WaterSample_validate_Valid in Hx
    as (H1 & H2 & H3 & H4 & _ & H6 & H7 & H8 & H9 & H10).
  split; apply WaterSample_validate_Valid; simpl.
  all: rewrite defaulted_insert_eq.
  all: rewrite !required_insert_ne, !defaulted_insert_ne by done.
  all: repeat split; try assumption; try reflexivity.
  all: simpl.
  all: by rewrite (v_float_in_range (Some 0) (Some 14) (VFloat q) q eq_refl)
    by (by intros ? [= <-]).
Qed.

Lemma ph_in_range_is_accepted_witness :
  is_valid (WaterSample.validate (VDict (sample_body "dry" (VInt 7)))) = true
  ∧ between 0 14 (Qc_of_Z 14)
  ∧ ∀ x, WaterSample.validate (VDict (sample_body "dry" (VInt 7))) = Valid x →
      WaterSample.validate
        (VDict (<["ph" := VFloat (Qc_of_Z 14)]> (sample_body "dry" (VInt 7))))
      = Valid (with_ph (Some (Qc_of_Z 14)) x)
      ∧ WaterSample.validate
          (VDict (<["ph" := VNull]> (sample_body "dry" (VInt 7))))
        = Valid (with_ph None x).
Proof.
  assert (between 0 14 (Qc_of_Z 14)) as Hq.
  { split; by vm_compute. }
  split; [reflexivity|]. split; [exact Hq|]. intros x Hx.
  exact (ph_in_range_is_accepted _ x (Qc_of_Z 14) Hx Hq).
Defined.




Lemma violations_v_entries {A} (f : validator A) (l : list value) (n i : nat)
    (v : value) (e : verror) :
  l !! i = Some v →
  e ∈ violations (f v) →
  mk_verror (LIdx (n + i) :: loc e) (violated e) ∈ violations (v_entries f n l).
Proof.
  revert n i. induction l as [|w l IH]; intros n i Hi He; [done|].
  simpl. rewrite violations_vap, violations_vmap, violations_at_loc.
  apply elem_of_app. destruct i as [|i]; simpl in Hi.
  - injection Hi as ->. left. rewrite Nat.add_0_r.
    by apply (list_elem_of_fmap_2 (λ e, mk_verror (LIdx n :: loc e) (violated e))).
  - right. replace (n + S i)%nat with (S n + i)%nat by lia. by apply IH.
Qed.

(** X6. A sample is refused when an entry of [files] has no [filename],
    whatever else it holds: the error names the entry by its position, and
    nothing is stored. *)
Theorem file_without_filename_is_refused
    (d f : dict) (l : list value) (i : nat) (h : option database) :
  d !! "files" = Some (VList l) →
  l !! i = Some (VDict f) →
  f !! "filename" = None →
  ∃ errs,
    post_samples (VDict d) h = (Raise (RequestValidationError errs), h)
    ∧ mk_verror [LKey "files"; LIdx i; LKey "filename"] missing ∈ errs.
Proof.
  intros Hd Hl Hf.
  assert (mk_verror [LKey "files"; LIdx i; LKey "filename"] missing
            ∈ violations (WaterSample.validate (VDict d))) as He.
  { rewrite WaterSample_violations. unfold field_checks.
    cbn [fmap list_fmap snd concat]. rewrite !elem_of_app. do 9 right. left.
    unfold defaulted. rewrite Hd. rewrite violations_at_loc.
    cbn [v_optional vmap]. rewrite violations_vmap. cbn [v_list].
    apply (list_elem_of_fmap_2
             (λ e, mk_verror (LKey "files" :: loc e) (violated e))
             _ (mk_verror [LIdx i; LKey "filename"] missing)).
    apply (violations_v_entries SampleFile.validate l 0 i (VDict f)
             (mk_verror [LKey "filename"] missing) Hl).
    unfold SampleFile.validate, v_model.
    rewrite !violations_vap, violations_vmap. unfold required at 1.
    rewrite Hf. simpl. apply list_elem_of_here. }
  eexists. split; [|exact He].
  apply post_samples_invalid. by eapply violations_invalid.
Qed.

Lemma file_without_filename_is_refused_witness :
  body_with_files !! "files" = Some (VList two_files)
  ∧ two_files !! 1%nat = Some (VDict {[ "size" := VInt 9 ]})
  ∧ ({[ "size" := VInt 9 ]} : dict) !! "filename" = None
  ∧ ∃ errs,
      post_samples (VDict body_with_files) (Some empty_store)
      = (Raise (RequestValidationError errs), Some empty_store)
      ∧ mk_verror [LKey "files"; LIdx 1; LKey "filename"] missing ∈ errs.
Proof.
  split; [reflexivity|]. split; [reflexivity|]. split; [reflexivity|].
  apply (file_without_filename_is_refused body_with_files {[ "size" := VInt 9 ]}
           two_files 1 (Some empty_store)); reflexivity.
Defined.

(** X7. [scenario], [collected_at] and [location] are required: a body
    that lacks one of them is refused with an error that reports the field
    missing, and nothing is stored. *)
Theorem required_fields_must_be_present
    (d : dict) (k : string) (h : option database) :
  k ∈ ["scenario"; "collected_at"; "location"] →
  d !! k = None →
  ∃ errs,
    post_samples (VDict d) h = (Raise (RequestValidationError errs), h)
    ∧ mk_verror [LKey k] missing ∈ errs.
Proof.
  intros Hk Hd.
  assert (mk_verror [LKey k] missing
            ∈ violations (WaterSample.validate (VDict d))) as He.
  { rewrite WaterSample_violations. unfold field_checks.
    cbn [fmap list_fmap snd concat]. rewrite !elem_of_app.
    repeat (apply elem_of_cons in Hk as [->|Hk]); [| | |by apply elem_of_nil in Hk].
    - left. unfold required. rewrite Hd. apply list_elem_of_here.
    - do 2 right. left. unfold required. rewrite Hd. apply list_elem_of_here.
    - do 3 right. left. unfold required. rewrite Hd. apply list_elem_of_here. }
  eexists. split; [|exact He].
  apply post_samples_invalid. by eapply violations_invalid.
Qed.

Lemma required_fields_must_be_present_witness :
  "location" ∈ ["scenario"; "collected_at"; "location"]
  ∧ (delete "location" (sample_body "dry" VNull) : dict) !! "location" = None
  ∧ ∃ errs,
      post_samples (VDict (delete "location" (sample_body "dry" VNull)))
        (Some empty_store)
      = (Raise (RequestValidationError errs), Some empty_store)
      ∧ mk_verror [LKey "location"] missing ∈ errs.
Proof.
  assert ("location" ∈ ["scenario"; "collected_at"; "location"]) as Hk.
  { apply (bool_decide_unpack _). vm_compute. exact I. }
  split; [exact Hk|]. split; [reflexivity|].
  apply (required_fields_must_be_present _ "location" (Some empty_store) Hk).
  reflexivity.
Defined.

(** ** Further properties of [clean] *)

Lemma render_not_datetime (v : value) : is_datetime (render v) = false.
Proof. by destruct v. Qed.

Lemma render_idemp (v : value) : render (render v) = render v.
Proof. by destruct v. Qed.

Lemma normalized_idemp (v : value) : normalized (normalized v) = normalized v.
Proof.
  destruct v; simpl; try done.
  f_equal. rewrite <- map_fmap_compose. apply map_fmap_ext.
  intros k x _. apply render_idemp.
Qed.

(** X8. A record that has no [_id], or a falsy one, comes out of [clean]
    with [id] null; every other field, a falsy [_id] included, is there as
    normalization leaves it. *)
Theorem clean_without_identifier (doc : dict) :
  doc !! "_id" = None ∨ (∃ i, doc !! "_id" = Some i ∧ truthy i = false) →
  clean doc !! "id" = Some VNull
  ∧ ∀ k, k ≠ "id" → clean doc !! k = normalized <$> doc !! k.
Proof.
  intros Hid. rewrite clean_fmap.
  assert (match doc !! "_id" with
          | Some i =>
              if truthy i then <["id" := VStr (py_str i)]> (delete "_id" doc)
              else <["id" := VNull]> doc
          | None => <["id" := VNull]> doc
          end = <["id" := VNull]> doc) as ->.
  { destruct Hid as [-> | (i & -> & ->)]; done. }
  split.
  - by rewrite lookup_fmap, lookup_insert_eq.
  - intros k Hk. by rewrite lookup_fmap, lookup_insert_ne.
Qed.

Lemma clean_without_identifier_witness :
  ((<["_id" := VInt 0]> (sample_body "dry" VNull) : dict) !! "_id" = None
   ∨ ∃ i, (<["_id" := VInt 0]> (sample_body "dry" VNull) : dict) !! "_id" = Some i
          ∧ truthy i = false)
  ∧ clean (<["_id" := VInt 0]> (sample_body "dry" VNull)) !! "id" = Some VNull
  ∧ ∀ k, k ≠ "id" →
      clean (<["_id" := VInt 0]> (sample_body "dry" VNull)) !! k
      = normalized <$> (<["_id" := VInt 0]> (sample_body "dry" VNull) : dict) !! k.
Proof.
  assert ((<["_id" := VInt 0]> (sample_body "dry" VNull) : dict) !! "_id" = None
          ∨ ∃ i, (<["_id" := VInt 0]> (sample_body "dry" VNull) : dict) !! "_id"
                 = Some i ∧ truthy i = false) as Hid.
  { right. exists (VInt 0). split; reflexivity. }
  split; [exact Hid|].
  exact (clean_without_identifier _ Hid).
Defined.

(** X9. Whatever the record, what [clean] returns has an [id], holds no
    timestamp at the top level, and holds none directly inside a nested
    dict. *)
Theorem clean_leaves_no_timestamp (doc : dict) :
  is_Some (clean doc !! "id")
  ∧ ∀ k v, clean doc !! k = Some v →
      is_datetime v = false
      ∧ ∀ m kk vv, v = VDict m → m !! kk = Some vv → is_datetime vv = false.
Proof.
  rewrite clean_fmap. split.
  - rewrite lookup_fmap.
    destruct (doc !! "_id") as [i|]; [destruct (truthy i)|];
      by rewrite lookup_insert_eq.
  - intros k v. rewrite lookup_fmap.
    intros (v0 & _ & ->)%fmap_Some. split.
    + by destruct v0.
    + intros m kk vv Hm Hvv. destruct v0; try done.
      injection Hm as <-. rewrite lookup_fmap in Hvv.
      apply fmap_Some in Hvv as (vv0 & _ & ->). apply render_not_datetime.
Qed.

(** X10. [clean] is to be applied once: on a record that it has already
    cleaned it finds no [_id] any more and sets [id] to null, leaving the
    rest as it was. *)
Theorem clean_twice_loses_id (doc : dict) (i : value) :
  doc !! "_id" = Some i →
  truthy i = true →
  clean (clean doc) = <["id" := VNull]> (clean doc).
Proof.
  intros Hid Htrue.
  assert (clean doc !! "_id" = None) as Hnone.
  { rewrite clean_fmap, Hid, Htrue.
    by rewrite lookup_fmap, lookup_insert_ne, lookup_delete_eq. }
  rewrite (clean_fmap (clean doc)), Hnone.
  rewrite fmap_insert. simpl. f_equal.
  rewrite (clean_fmap doc), <- map_fmap_compose.
  apply map_fmap_ext. intros k x _. apply normalized_idemp.
Qed.

Lemma clean_twice_loses_id_witness :
  record_with_file_timestamp !! "_id" = Some (VObjectId "65e1a0000000000000000001")
  ∧ truthy (VObjectId "65e1a0000000000000000001") = true
  ∧ clean (clean record_with_file_timestamp)
    = <["id" := VNull]> (clean record_with_file_timestamp).
Proof.
  split; [reflexivity|]. split; [reflexivity|].
  apply (clean_twice_loses_id _ (VObjectId "65e1a0000000000000000001"));
    reflexivity.
Defined.

(** ** Further properties of the Clustering stub *)

Lemma collect_KeyError (docs : list dict) (ids : list string)
    (payload : list (list value)) :
  Exists (λ d, d !! "_id" = None) docs →
  collect docs ids payload = Raise (KeyError "_id").
Proof.
  intros Hex. revert ids payload.
  induction docs as [|d docs IH]; intros ids payload; [by inversion Hex|].
  simpl. unfold subscript. destruct (d !! "_id") as [i|] eqn:Hi; [|done].
  simpl. apply IH. inversion Hex as [? ? Hd|]; [congruence|done].
Qed.

Lemma cluster_trigger_KeyError (db : database) (req : ClusterRequest.t) :
  Exists (λ d, d !! "_id" = None) (retrieved (ClusterRequest.scenario req) db) →
  cluster_trigger req (Some db)
  = (Raise (HTTPException 500 (KeyError "_id")), Some db).
Proof.
  intros Hex. unfold cluster_trigger, or_500, try_except, mbind, handler_bind.
  simpl. unfold lift. fold (retrieved (ClusterRequest.scenario req) db).
  by rewrite (collect_KeyError _ [] [] Hex).
Qed.

Lemma has_id_or_not (docs : list dict) :
  Forall (λ d, is_Some (d !! "_id")) docs ∨ Exists (λ d, d !! "_id" = None) docs.
Proof.
  induction docs as [|d docs [IH|IH]].
  - left. constructor.
  - destruct (d !! "_id") as [i|] eqn:Hi.
    + left. constructor; [by rewrite Hi|done].
    + right. by constructor.
  - right. by constructor 2.
Qed.

(** What the stub has answered, when it has answered. *)
Lemma cluster_trigger_Ok (req : ClusterRequest.t) (h h' : option database)
    (r : ClusterResult.t) :
  cluster_trigger req h = (Ok r, h') →
  ∃ db, h = Some db ∧ h' = Some db
        ∧ Forall (λ d, is_Some (d !! "_id"))
            (retrieved (ClusterRequest.scenario req) db)
        ∧ r = ClusterResult.mk (ClusterRequest.scenario req) (ClusterRequest.k req)
                (round_robin
                   (id_text <$> retrieved (ClusterRequest.scenario req) db)
                   (ClusterRequest.k req)).
Proof.
  destruct h as [db|]; [|done]. intros H. exists db.
  destruct (has_id_or_not (retrieved (ClusterRequest.scenario req) db))
    as [Hids|Hex].
  - rewrite cluster_trigger_ok in H by done. injection H as <- <-. done.
  - by rewrite cluster_trigger_KeyError in H.
Qed.

(** X11. With the store there, the stub fails exactly when one of the
    records it retrieves has no [_id]: the lookup raises, the handler
    answers 500, and the store is as before. *)
Theorem cluster_fails_on_record_without_id (db : database) (req : ClusterRequest.t) :
  (Exists (λ d, d !! "_id" = None) (retrieved (ClusterRequest.scenario req) db)
   ↔ cluster_trigger req (Some db)
     = (Raise (HTTPException 500 (KeyError "_id")), Some db))
  ∧ (Forall (λ d, is_Some (d !! "_id")) (retrieved (ClusterRequest.scenario req) db)
     ↔ ∃ r, cluster_trigger req (Some db) = (Ok r, Some db)).
Proof.
  split; split.
  - apply cluster_trigger_KeyError.
  - intros H.
    destruct (has_id_or_not (retrieved (ClusterRequest.scenario req) db))
      as [Hids|Hex]; [|done].
    by rewrite cluster_trigger_ok in H.
  - intros Hids. eexists. by apply cluster_trigger_ok.
  - intros [r (db' & [= <-] & _ & Hids & _)%cluster_trigger_Ok]. done.
Qed.

(** X12. Every label of an answer is a cluster index: at least 0 and below
    [k], or 0 when [k] is not positive. *)
Theorem cluster_labels_within_range
    (req : ClusterRequest.t) (h h' : option database) (r : ClusterResult.t) :
  cluster_trigger req h = (Ok r, h') →
  ∀ key l, ClusterResult.labels r !! key = Some l →
    0 ≤ l < Z.max 1 (ClusterResult.k r).
Proof.
  intros (db & _ & _ & _ & ->)%cluster_trigger_Ok key l. simpl.
  intros (i & _ & -> & _)%round_robin_lookup.
  apply Z.mod_pos_bound. lia.
Qed.

Lemma cluster_labels_within_range_witness :
  ∃ r h',
    cluster_trigger (ClusterRequest.mk None 3) (Some (store_of (dry_records 7)))
    = (Ok r, h')
    ∧ ∀ key l, ClusterResult.labels r !! key = Some l →
        0 ≤ l < Z.max 1 (ClusterResult.k r).
Proof.
  eexists _, _. split; [vm_compute; reflexivity|].
  apply (cluster_labels_within_range (ClusterRequest.mk None 3)
           (Some (store_of (dry_records 7))) (Some (store_of (dry_records 7)))).
  vm_compute. reflexivity.
Defined.

(** X13. The answer labels exactly the retrieved records: a key has a label
    if and only if it is the id text of one of them. *)
Theorem cluster_labels_exactly_the_retrieved
    (req : ClusterRequest.t) (h h' : option database) (r : ClusterResult.t) :
  cluster_trigger req h = (Ok r, h') →
  ∃ db, h = Some db
    ∧ ∀ key, is_Some (ClusterResult.labels r !! key)
             ↔ ∃ d, d ∈ retrieved (ClusterRequest.scenario req) db
                    ∧ key = id_text d.
Proof.
  intros (db & -> & _ & _ & ->)%cluster_trigger_Ok. exists db.
  split; [done|]. intros key. simpl. split.
  - intros [l (i & Hi & _)%round_robin_lookup].
    apply list_lookup_fmap_Some in Hi as (d & -> & Hd).
    exists d. split; [|done]. by eapply list_elem_of_lookup_2.
  - intros (d & Hd & ->). apply round_robin_is_Some. by apply list_elem_of_fmap_2.
Qed.

Lemma cluster_labels_exactly_the_retrieved_witness :
  ∃ r h',
    cluster_trigger (ClusterRequest.mk None 3) (Some (store_of (dry_records 2)))
    = (Ok r, h')
    ∧ ∃ db, Some (store_of (dry_records 2)) = Some db
        ∧ ∀ key, is_Some (ClusterResult.labels r !! key)
                 ↔ ∃ d, d ∈ retrieved None db ∧ key = id_text d.
Proof.
  eexists _, _. split; [vm_compute; reflexivity|].
  apply (cluster_labels_exactly_the_retrieved (ClusterRequest.mk None 3)
           (Some (store_of (dry_records 2))) (Some (store_of (dry_records 2)))).
  vm_compute. reflexivity.
Defined.

(** X14. When several retrieved records have the same id text, they share
    one label, the one computed for the last of them: a record is labelled
    by its own position if no later record reads the same. *)
Theorem cluster_shared_id_keeps_last_label
    (db : database) (req : ClusterRequest.t) (i : nat) (d : dict) :
  Forall (λ d, is_Some (d !! "_id")) (retrieved (ClusterRequest.scenario req) db) →
  retrieved (ClusterRequest.scenario req) db !! i = Some d →
  (∀ j d', (i < j)%nat →
     retrieved (ClusterRequest.scenario req) db !! j = Some d' →
     id_text d' ≠ id_text d) →
  ∃ r,
    cluster_trigger req (Some db) = (Ok r, Some db)
    ∧ ClusterResult.labels r !! id_text d
      = Some (Z.of_nat i mod Z.max 1 (ClusterRequest.k req))
    ∧ ∀ j d', retrieved (ClusterRequest.scenario req) db !! j = Some d' →
        id_text d' = id_text d →
        ClusterResult.labels r !! id_text d'
        = Some (Z.of_nat i mod Z.max 1 (ClusterRequest.k req)).
Proof.
  intros Hids Hi Hlast. eexists. split; [by apply cluster_trigger_ok|].
  simpl.
  assert (round_robin (id_text <$> retrieved (ClusterRequest.scenario req) db)
            (ClusterRequest.k req) !! id_text d
          = Some (Z.of_nat i mod Z.max 1 (ClusterRequest.k req))) as Hl.
  { apply round_robin_lookup. exists i. split; [|split; [done|]].
    - by rewrite list_lookup_fmap, Hi.
    - intros j Hj Hjd.
      apply list_lookup_fmap_Some in Hjd as (d' & Hd' & Hjd).
      by apply (Hlast j d'). }
  split; [done|]. intros j d' _ ->. done.
Qed.

Lemma cluster_shared_id_keeps_last_label_witness :
  Forall (λ d, is_Some (d !! "_id")) (retrieved None (store_of same_text_records))
  ∧ retrieved None (store_of same_text_records) !! 1%nat
    = Some {[ "_id" := VStr "1"; "scenario" := VStr "wet" ]}
  ∧ ∃ r,
      cluster_trigger (ClusterRequest.mk None 2) (Some (store_of same_text_records))
      = (Ok r, Some (store_of same_text_records))
      ∧ ClusterResult.labels r !! "1" = Some 1.
Proof.
  assert (Forall (λ d, is_Some (d !! "_id"))
            (retrieved None (store_of same_text_records))) as Hids.
  { apply (bool_decide_unpack _). vm_compute. exact I. }
  split; [exact Hids|]. split; [reflexivity|].
  destruct (cluster_shared_id_keeps_last_label (store_of same_text_records)
              (ClusterRequest.mk None 2) 1
              {[ "_id" := VStr "1"; "scenario" := VStr "wet" ]} Hids eq_refl)
    as (r & Hr & Hl & _).
  { intros [|[|j]] d' Hj Hd'; [lia|lia|]. discriminate Hd'. }
  exists r. split; [exact Hr|exact Hl].
Defined.

(** X15. The features that the stub collects play no part in its answer:
    two stores whose retrieved records have the same id texts in the same
    order get the same answer, whatever the measurements of the records. *)
Theorem cluster_ignores_measurements
    (db1 db2 : database) (req : ClusterRequest.t) :
  Forall (λ d, is_Some (d !! "_id")) (retrieved (ClusterRequest.scenario req) db1) →
  Forall (λ d, is_Some (d !! "_id")) (retrieved (ClusterRequest.scenario req) db2) →
  id_text <$> retrieved (ClusterRequest.scenario req) db1
  = id_text <$> retrieved (ClusterRequest.scenario req) db2 →
  ∃ r,
    cluster_trigger req (Some db1) = (Ok r, Some db1)
    ∧ cluster_trigger req (Some db2) = (Ok r, Some db2).
Proof.
  intros H1 H2 Hsame. eexists. split; [by apply cluster_trigger_ok|].
  rewrite cluster_trigger_ok by done. by rewrite Hsame.
Qed.

Lemma cluster_ignores_measurements_witness :
  Forall (λ d, is_Some (d !! "_id")) (retrieved None (store_of (dry_records 3)))
  ∧ Forall (λ d, is_Some (d !! "_id"))
      (retrieved None (store_of (measured_records 3)))
  ∧ id_text <$> retrieved None (store_of (dry_records 3))
    = id_text <$> retrieved None (store_of (measured_records 3))
  ∧ ∃ r,
      cluster_trigger (ClusterRequest.mk None 2) (Some (store_of (dry_records 3)))
      = (Ok r, Some (store_of (dry_records 3)))
      ∧ cluster_trigger (ClusterRequest.mk None 2)
          (Some (store_of (measured_records 3)))
        = (Ok r, Some (store_of (measured_records 3))).
Proof.
  assert (Forall (λ d, is_Some (d !! "_id"))
            (retrieved None (store_of (dry_records 3)))) as H1.
  { apply (bool_decide_unpack _). vm_compute. exact I. }
  assert (Forall (λ d, is_Some (d !! "_id"))
            (retrieved None (store_of (measured_records 3)))) as H2.
  { apply (bool_decide_unpack _). vm_compute. exact I. }
  assert (id_text <$> retrieved None (store_of (dry_records 3))
          = id_text <$> retrieved None (store_of (measured_records 3))) as H3.
  { vm_compute. reflexivity. }
  split; [exact H1|]. split; [exact H2|]. split; [exact H3|].
  exact (cluster_ignores_measurements (store_of (dry_records 3))
           (store_of (measured_records 3)) (ClusterRequest.mk None 2) H1 H2 H3).
Defined.

Lemma clean_id_text (d : dict) (i : value) :
  d !! "_id" = Some i → truthy i = true →
  clean d !! "id" = Some (VStr (id_text d)).
Proof.
  intros Hi Ht. rewrite clean_fmap, Hi, Ht.
  rewrite lookup_fmap, lookup_insert_eq. simpl.
  unfold id_text, get. by rewrite Hi.
Qed.

(** X16. Query and the stub agree on the records and on their ids: over a
    store whose records carry truthy identifiers, the stub answers for the
    same scenario argument, and the [id] of every item that an unlimited
    Query returns is a key of the stub's labels. *)
Theorem listed_records_are_labelled
    (db : database) (scenario : option string) (k : Z) :
  Forall (λ d, ∃ i, d !! "_id" = Some i ∧ truthy i = true)
    (retrieved scenario db) →
  ∃ r,
    cluster_trigger (ClusterRequest.mk scenario k) (Some db) = (Ok r, Some db)
    ∧ list_samples scenario None (Some db)
      = (Ok (page (clean <$> retrieved scenario db)), Some db)
    ∧ ∀ item, item ∈ clean <$> retrieved scenario db →
        ∃ key, item !! "id" = Some (VStr key)
               ∧ is_Some (ClusterResult.labels r !! key).
Proof.
  intros Hids. eexists. split; [|split].
  - apply cluster_trigger_ok. simpl. eapply Forall_impl; [exact Hids|].
    intros d (i & -> & _). by eexists.
  - apply list_samples_ok.
  - intros item (d & -> & Hd)%list_elem_of_fmap. simpl.
    rewrite Forall_forall in Hids. destruct (Hids d Hd) as (i & Hi & Ht).
    exists (id_text d). split; [by eapply clean_id_text|].
    apply round_robin_is_Some. by apply list_elem_of_fmap_2.
Qed.

Lemma listed_records_are_labelled_witness :
  Forall (λ d, ∃ i, d !! "_id" = Some i ∧ truthy i = true)
    (retrieved (Some "dry") (store_of (dry_records 2)))
  ∧ ∃ r,
      cluster_trigger (ClusterRequest.mk (Some "dry") 3)
        (Some (store_of (dry_records 2)))
      = (Ok r, Some (store_of (dry_records 2)))
      ∧ list_samples (Some "dry") None (Some (store_of (dry_records 2)))
        = (Ok (page (clean <$> retrieved (Some "dry") (store_of (dry_records 2)))),
           Some (store_of (dry_records 2)))
      ∧ ∀ item, item ∈ clean <$> retrieved (Some "dry") (store_of (dry_records 2)) →
          ∃ key, item !! "id" = Some (VStr key)
                 ∧ is_Some (ClusterResult.labels r !! key).
Proof.
  assert (Forall (λ d, ∃ i, d !! "_id" = Some i ∧ truthy i = true)
            (retrieved (Some "dry") (store_of (dry_records 2)))) as Hids.
  { change (retrieved (Some "dry") (store_of (dry_records 2)))
      with (dry_records 2).
    unfold dry_records. cbn [seq fmap list_fmap].
    repeat (apply Forall_cons_2 || apply Forall_nil_2).
    all: eexists; split; [vm_compute; reflexivity | reflexivity]. }
  split; [exact Hids|].
  exact (listed_records_are_labelled (store_of (dry_records 2)) (Some "dry") 3 Hids).
Defined.

(** X17. A clustering request that gives no [k] asks for 3 clusters, and
    one that gives no [scenario] asks for every record: the body is
    handled as the request with these defaults, whatever other keys it
    holds. *)
Theorem cluster_request_defaults (d : dict) :
  d !! "k" = None →
  d !! "scenario" = None →
  ClusterRequest.validate (VDict d) = Valid (ClusterRequest.mk None 3)
  ∧ post_cluster (VDict d) = cluster_trigger (ClusterRequest.mk None 3).
Proof.
  intros Hk Hs.
  assert (ClusterRequest.validate (VDict d) = Valid (ClusterRequest.mk None 3))
    as Hv.
  { unfold ClusterRequest.validate, v_model, defaulted. by rewrite Hk, Hs. }
  split; [done|]. unfold post_cluster, with_body. by rewrite Hv.
Qed.

Lemma cluster_request_defaults_witness :
  ({[ "note" := VStr "nightly" ]} : dict) !! "k" = None
  ∧ ({[ "note" := VStr "nightly" ]} : dict) !! "scenario" = None
  ∧ ClusterRequest.validate (VDict {[ "note" := VStr "nightly" ]})
    = Valid (ClusterRequest.mk None 3)
  ∧ post_cluster (VDict {[ "note" := VStr "nightly" ]})
    = cluster_trigger (ClusterRequest.mk None 3).
Proof.
  split; [reflexivity|]. split; [reflexivity|].
  apply (cluster_request_defaults {[ "note" := VStr "nightly" ]}); reflexivity.
Defined.

(** ** The diagnostic endpoint *)

Lemma test_database_lookup (db : option Db.t) (environ : gmap string string) :
  test_database db environ !! "database_url"
  = Some (VStr (if getenv_truthy environ "DATABASE_URL" then "✅ Set"
                else "❌ Not Set"))
  ∧ test_database db environ !! "database_name"
    = Some (VStr (if getenv_truthy environ "DATABASE_NAME" then "✅ Set"
                  else "❌ Not Set"))
  ∧ test_database db environ !! "backend" = Some (VStr "✅ Running").
Proof.
  unfold test_database.
  destruct db as [[nm [e|names]]|]; cbn [Db.list_collection_names Db.name].
  all: split; [|split].
  all: repeat (rewrite lookup_insert_eq || rewrite lookup_insert_ne by done).
  all: done.
Qed.

Lemma getenv_truthy_true (environ : gmap string string) (key : string) :
  getenv_truthy environ key = true ↔ ∃ s, environ !! key = Some s ∧ s ≠ "".
Proof.
  unfold getenv_truthy. destruct (environ !! key) as [s|].
  - rewrite negb_true_iff, bool_decide_eq_false. split.
    + intros Hs. by exists s.
    + by intros (? & [= <-] & ?).
  - split; [done|]. by intros (? & ? & _).
Qed.

(** X18. What [GET /test] reports under [database_url] and [database_name]
    is read off the environment alone: "Set" exactly when the variable
    ([DATABASE_URL], [DATABASE_NAME]) is set to a non-empty text, and "Not
    Set" otherwise, an empty value included; what was written from the
    handle (its name) never reaches the response. *)
Theorem test_database_reports_environment
    (db : option Db.t) (environ : gmap string string) :
  (test_database db environ !! "database_url" = Some (VStr "✅ Set")
   ↔ ∃ s, environ !! "DATABASE_URL" = Some s ∧ s ≠ "")
  ∧ (test_database db environ !! "database_url" = Some (VStr "❌ Not Set")
     ↔ environ !! "DATABASE_URL" = None ∨ environ !! "DATABASE_URL" = Some "")
  ∧ (test_database db environ !! "database_name" = Some (VStr "✅ Set")
     ↔ ∃ s, environ !! "DATABASE_NAME" = Some s ∧ s ≠ "")
  ∧ (test_database db environ !! "database_name" = Some (VStr "❌ Not Set")
     ↔ environ !! "DATABASE_NAME" = None ∨ environ !! "DATABASE_NAME" = Some "").
Proof.
  destruct (test_database_lookup db environ) as (-> & -> & _).
  assert (∀ key,
    (Some (VStr (if getenv_truthy environ key then "✅ Set" else "❌ Not Set"))
     = Some (VStr "✅ Set")
     ↔ ∃ s, environ !! key = Some s ∧ s ≠ "")
    ∧ (Some (VStr (if getenv_truthy environ key then "✅ Set" else "❌ Not Set"))
       = Some (VStr "❌ Not Set")
       ↔ environ !! key = None ∨ environ !! key = Some "")) as Hkey.
  { intros key. rewrite <- getenv_truthy_true.
    assert (environ !! key = None ∨ environ !! key = Some ""
            ↔ getenv_truthy environ key = false) as ->.
    { unfold getenv_truthy. destruct (environ !! key) as [s|].
      - rewrite negb_false_iff, bool_decide_eq_true. split.
        + by intros [?|[= ->]].
        + intros ->. by right.
      - split; [done|]. by left. }
    destruct (getenv_truthy environ key); split; split; try done.
    all: intros H; discriminate H. }
  destruct (Hkey "DATABASE_URL") as [? ?].
  destruct (Hkey "DATABASE_NAME") as [? ?]. done.
Qed.

(** X19. [GET /test] never answers the status it starts from: every path
    replaces "Not Available". It reports "Connected" exactly when the handle
    is there, and lists collections only when the listing succeeds: the
    first ten names at most. *)
Theorem test_database_status (db : option Db.t) (environ : gmap string string) :
  test_database db environ !! "database" ≠ Some (VStr "❌ Not Available")
  ∧ (test_database db environ !! "connection_status" = Some (VStr "Connected")
     ↔ is_Some db)
  ∧ ∃ names,
      test_database db environ !! "collections" = Some (VList (VStr <$> names))
      ∧ (length names ≤ 10)%nat
      ∧ (∀ conn all, db = Some conn →
           Db.list_collection_names conn = inr all → names = take 10 all)
      ∧ (∀ conn e, db = Some conn →
           Db.list_collection_names conn = inl e → names = []).
Proof.
  unfold test_database.
  destruct db as [[nm [e|all]]|]; cbn [Db.list_collection_names Db.name].
  all: split; [|split].
  all: repeat (rewrite lookup_insert_eq || rewrite lookup_insert_ne by done).
  - intros H. simpl in H. discriminate H.
  - split; [by eexists | done].
  - exists []. rewrite lookup_singleton_eq.
    split; [reflexivity|]. split; [simpl; lia|]. split; [|done].
    by intros ? ? [= <-] ?.
  - intros H. discriminate H.
  - split; [by eexists | done].
  - exists (take 10 all).
    split; [reflexivity|]. split; [rewrite length_take; lia|]. split.
    + by intros ? ? [= <-] [= <-].
    + by intros ? ? [= <-] ?.
  - intros H. discriminate H.
  - split; [intros H; discriminate H | by intros [? ?]].
  - exists []. rewrite lookup_singleton_eq.
    split; [reflexivity|]. split; [simpl; lia|]. split; done.
Qed.

(** ** The handlers' failures *)

Lemma or_500_Raise {A} (body : handler A) (h : option database) (e : exn) :
  (or_500 body h).1 = Raise e →
  ∃ cause, e = HTTPException 500 cause ∧ (body h).1 = Raise cause.
Proof.
  unfold or_500, try_except, raise. destruct (body h) as [[a|cause] h'].
  - done.
  - simpl. intros [= <-]. by exists cause.
Qed.

(** X20. Whatever goes wrong inside one of the four handlers reaches the
    caller as an [HTTPException] with status 500, a failed construction of
    a summary included; none of them lets another exception through. *)
Theorem handlers_raise_only_http_500 (h : option database) (e : exn) :
  (∃ sample, (create_sample sample h).1 = Raise e)
  ∨ (∃ scenario limit, (list_samples scenario limit h).1 = Raise e)
  ∨ (get_summaries h).1 = Raise e
  ∨ (∃ req, (cluster_trigger req h).1 = Raise e) →
  ∃ cause, e = HTTPException 500 cause.
Proof.
  intros [[sample H]|[(scenario & limit & H)|[H|[req H]]]].
  all: apply or_500_Raise in H as (cause & -> & _); by exists cause.
Qed.

Lemma handlers_raise_only_http_500_witness :
  (get_summaries None).1
  = Raise (HTTPException 500 (TypeError "'NoneType' object is not subscriptable"))
  ∧ ∃ cause,
      HTTPException 500 (TypeError "'NoneType' object is not subscriptable")
      = HTTPException 500 cause.
Proof.
  split; [reflexivity|].
  apply (handlers_raise_only_http_500 None).
  right; right; left; reflexivity.
Defined.

(** ** The counts of the summaries *)

Lemma one_key_matches {K} `{EqDecision K} (ks : list K) (k : K) :
  NoDup ks → k ∈ ks →
  sum_list ((λ k', if decide (k = k') then 1%nat else 0%nat) <$> ks) = 1%nat.
Proof.
  intros Hnd Hk. induction Hnd as [|k0 ks Hk0 Hnd IH]; [by apply elem_of_nil in Hk|].
  cbn [fmap list_fmap sum_list_with id]. destruct (decide (k = k0)) as [->|Hne].
  - assert (sum_list ((λ k', if decide (k0 = k') then 1%nat else 0%nat) <$> ks)
            = 0%nat) as ->; [|done].
    clear IH Hk Hnd. induction ks as [|k1 ks IH]; [done|].
    cbn [fmap list_fmap sum_list_with id].
    apply not_elem_of_cons in Hk0 as [? ?].
    rewrite decide_False by done. by apply IH.
  - apply elem_of_cons in Hk as [?|Hk]; [done|]. by apply IH.
Qed.

(** Groups by key split a list: their sizes add up to its length. *)
Lemma groups_partition {A K} `{EqDecision K} (g : A → K) (ks : list K)
    (l : list A) :
  NoDup ks →
  (∀ x, x ∈ l → g x ∈ ks) →
  sum_list ((λ k, length (filter (λ x, g x = k) l)) <$> ks) = length l.
Proof.
  intros Hnd. induction l as [|x l IH]; intros Hin.
  - clear Hnd Hin. induction ks as [|k ks IHk]; [done|].
    cbn [fmap list_fmap sum_list_with id]. by rewrite IHk.
  - assert (sum_list ((λ k, length (filter (λ x, g x = k) (x :: l))) <$> ks)
            = (sum_list ((λ k', if decide (g x = k') then 1 else 0) <$> ks)
               + sum_list ((λ k, length (filter (λ x, g x = k) l)) <$> ks))%nat)
      as ->.
    { clear. induction ks as [|k ks IHk]; [done|].
      cbn [fmap list_fmap sum_list_with id]. rewrite IHk.
      rewrite filter_cons. destruct (decide (g x = k)); simpl; lia. }
    rewrite one_key_matches; [|done|apply Hin, list_elem_of_here].
    rewrite IH; [done|]. intros y Hy. apply Hin. by apply list_elem_of_further.
Qed.

(** X21. Over a store of records as ingestion leaves them, the counts of
    the summaries add up to the number of records: every record is counted
    in one summary, and in one only. *)
Theorem summary_counts_add_up (db : database) :
  Forall conforms (collection "watersample" db) →
  ∃ sums,
    get_summaries (Some db) = (Ok sums, Some db)
    ∧ total_count sums = Z.of_nat (length (collection "watersample" db)).
Proof.
  intros Hdocs. eexists. split; [by apply get_summaries_ok|].
  set (docs := collection "watersample" db) in *.
  set (keys := remove_dups (group_key (Field "scenario") <$> docs)).
  assert (∀ key, key ∈ keys → ∃ s, key = VStr s) as Hkeys.
  { intros key Hkey.
    apply elem_of_remove_dups, list_elem_of_fmap in Hkey as (d & -> & Hd).
    rewrite Forall_forall in Hdocs.
    destruct (Hdocs d Hd) as [[s Hs] _]. exists s.
    unfold group_key, eval. by rewrite Hs. }
  assert (total_count ((λ key, summary_of (scenario_name key) docs) <$> keys)
          = Z.of_nat
              (sum_list
                 ((λ k, length (filter (λ d, group_key (Field "scenario") d = k)
                                  docs)) <$> keys))) as ->.
  { unfold total_count. clear -Hkeys.
    induction keys as [|key keys IH]; [done|].
    cbn [fmap list_fmap foldr sum_list_with id].
    rewrite Nat2Z.inj_add, <- IH.
    2:{ intros k Hk. apply Hkeys. by apply list_elem_of_further. }
    destruct (Hkeys key (list_elem_of_here _ _)) as [s ->].
    by rewrite members_of_scenario. }
  f_equal. apply groups_partition; [apply NoDup_remove_dups|].
  intros d Hd. apply elem_of_remove_dups. by apply list_elem_of_fmap_2.
Qed.

Lemma summary_counts_add_up_witness :
  Forall conforms (collection "watersample" (store_of three_records))
  ∧ ∃ sums,
      get_summaries (Some (store_of three_records))
      = (Ok sums, Some (store_of three_records))
      ∧ total_count sums
        = Z.of_nat (length (collection "watersample" (store_of three_records))).
Proof.
  split; [exact three_records_conform|].
  exact (summary_counts_add_up (store_of three_records) three_records_conform).
Defined.

(** ** Ingestion that succeeds *)

(** X22. An answer of [POST /samples] always comes from a body that
    validates and from one call of [create_document] with the validated
    sample: the answer carries the id that the call returned and the status
    "created", and the store is as the call left it. *)
Theorem ingestion_answer_comes_from_create_document
    (body : value) (h h' : option database) (r : IngestResponse.t) :
  post_samples body h = (Ok r, h') →
  ∃ sample,
    WaterSample.validate body = Valid sample
    ∧ create_document "watersample" sample h = (Ok (IngestResponse.id r), h')
    ∧ IngestResponse.status r = "created".
Proof.
  unfold post_samples, with_body.
  destruct (WaterSample.validate body) as [sample|errs]; [|done].
  unfold create_sample, or_500, try_except, mbind, handler_bind.
  destruct (create_document "watersample" sample h) as [[oid|e] h1] eqn:Hc;
    [|done].
  simpl. intros [= <- <-]. by exists sample.
Qed.

Lemma ingestion_answer_comes_from_create_document_witness :
  ∃ r h',
    post_samples (VDict (sample_body "dry" (VInt 7))) (Some empty_store) = (Ok r, h')
    ∧ ∃ sample,
        WaterSample.validate (VDict (sample_body "dry" (VInt 7))) = Valid sample
        ∧ create_document "watersample" sample (Some empty_store)
          = (Ok (IngestResponse.id r), h')
        ∧ IngestResponse.status r = "created".
Proof.
  eexists _, _. split; [vm_compute; reflexivity|].
  apply (ingestion_answer_comes_from_create_document
           (VDict (sample_body "dry" (VInt 7))) (Some empty_store)).
  vm_compute. reflexivity.
Defined.

(** X23. The stub guards its filter as the Query does: asked for the
    scenario [""], it labels the records of every scenario, exactly as when
    no scenario is given, and echoes the [""] in its answer. *)
Theorem cluster_empty_scenario_is_no_filter (db : database) (k : Z) :
  Forall (λ d, is_Some (d !! "_id")) (collection "watersample" db) →
  ∃ labels,
    cluster_trigger (ClusterRequest.mk (Some "") k) (Some db)
    = (Ok (ClusterResult.mk (Some "") k labels), Some db)
    ∧ cluster_trigger (ClusterRequest.mk None k) (Some db)
      = (Ok (ClusterResult.mk None k labels), Some db)
    ∧ ∀ d, d ∈ collection "watersample" db → is_Some (labels !! id_text d).
Proof.
  intros Hids.
  assert (retrieved (Some "") db = collection "watersample" db) as Hall1.
  { unfold retrieved. apply filter_matches_empty. }
  assert (retrieved None db = collection "watersample" db) as Hall2.
  { unfold retrieved. apply filter_matches_empty. }
  exists (round_robin (id_text <$> collection "watersample" db) k).
  split; [|split].
  - rewrite cluster_trigger_ok; simpl; by rewrite Hall1.
  - rewrite cluster_trigger_ok; simpl; by rewrite Hall2.
  - intros d Hd. apply round_robin_is_Some. by apply list_elem_of_fmap_2.
Qed.

Lemma cluster_empty_scenario_is_no_filter_witness :
  Forall (λ d, is_Some (d !! "_id"))
    (collection "watersample" (store_of same_text_records))
  ∧ ∃ labels,
      cluster_trigger (ClusterRequest.mk (Some "") 2)
        (Some (store_of same_text_records))
      = (Ok (ClusterResult.mk (Some "") 2 labels), Some (store_of same_text_records))
      ∧ cluster_trigger (ClusterRequest.mk None 2)
          (Some (store_of same_text_records))
        = (Ok (ClusterResult.mk None 2 labels), Some (store_of same_text_records))
      ∧ ∀ d, d ∈ collection "watersample" (store_of same_text_records) →
          is_Some (labels !! id_text d).
Proof.
  assert (Forall (λ d, is_Some (d !! "_id"))
            (collection "watersample" (store_of same_text_records))) as Hids.
  { apply (bool_decide_unpack _). vm_compute. exact I. }
  split; [exact Hids|].
  exact (cluster_empty_scenario_is_no_filter (store_of same_text_records) 2 Hids).
Defined.

(** ** Every violated constraint is reported *)












(** ** The default limit of the Query operation *)

(** C6, amended. A call of the Query operation that gives no limit takes
    the default of the signature, 200: it answers the first 200 matching
    records, which are all the matching records exactly when there are no
    more than 200. With the limit [None] every matching record is
    answered; that is the limit the Clustering stub retrieves with, so it
    labels every matching record. *)
Theorem omitted_limit_defaults_to_200
    (db : database) (scenario : option (option string)) (k : Z) :
  let matching :=
    filter (matches (scenario_filter (default None scenario)))
           (collection "watersample" db) in
  list_samples_call scenario None (Some db)
  = (Ok (page (clean <$> take 200 matching)), Some db)
  ∧ length (clean <$> take 200 matching) = (length matching `min` 200)%nat
  ∧ (take 200 matching = matching ↔ (length matching ≤ 200)%nat)
  ∧ list_samples_call scenario (Some None) (Some db)
    = (Ok (page (clean <$> matching)), Some db)
  ∧ (Forall (λ d, is_Some (d !! "_id")) matching →
     ∃ r,
       cluster_trigger (ClusterRequest.mk (default None scenario) k) (Some db)
       = (Ok r, Some db)
       ∧ ∀ d, d ∈ matching → is_Some (ClusterResult.labels r !! id_text d)).
Proof.
  intros matching. unfold list_samples_call. simpl default.
  rewrite !list_samples_ok. split; [done|]. split; [|split; [|split; [done|]]].
  - rewrite length_fmap, length_take. lia.
  - split.
    + intros Htake. rewrite <- Htake at 1. rewrite length_take. lia.
    + apply take_ge.
  - intros Hids. eexists. split.
    + by apply cluster_trigger_ok.
    + intros d Hd. simpl. apply round_robin_is_Some.
      by apply list_elem_of_fmap_2.
Qed.
